(** * GCapricorn data preparation: [streamlit_app.py]

    A shallow embedding of the data-preparation code of the dashboard
    (the Prognostic Summarizer [generate_prognostic_data], the Class
    Prioritizer [prioritize_protein_class] and the Dataset Loader
    [load_data]) together with the properties its specification states.

    Python text is modelled by [string]: a sequence of code points below
    256, which covers the ASCII text of the Human Protein Atlas table. *)

From Stdlib Require Import List String Ascii Bool Arith Lia.
Import ListNotations.
Open Scope string_scope.
Open Scope bool_scope.
Open Scope list_scope.

(** ** Exceptions and results *)

Inductive exn : Type :=
| IndexError
| AttributeError
| KeyError (key : string)
| FetchError.

Inductive result (A : Type) : Type :=
| Ok (a : A)
| Raise (e : exn).

Arguments Ok {A} a.
Arguments Raise {A} e.

Definition bind {A B : Type} (m : result A) (k : A -> result B) : result B :=
  match m with
  | Ok a => k a
  | Raise e => Raise e
  end.

Notation "x <- m ;; k" := (bind m (fun x => k))
  (at level 61, m at next level, right associativity).

(** [map_result f l] runs [f] over [l] from left to right and stops at the
    first exception, as a Python comprehension or a consumed [map] does. *)
Fixpoint map_result {A B : Type} (f : A -> result B) (l : list A)
  : result (list B) :=
  match l with
  | [] => Ok []
  | x :: l' => y <- f x ;; ys <- map_result f l' ;; Ok (y :: ys)
  end.

(** ** Python [str] operations *)

Module Py.

(** [c.isspace()] for a code point below 256: TAB..CR, FS..US, SPACE,
    NEL and NBSP. *)
Definition isspace (c : ascii) : bool :=
  let n := nat_of_ascii c in
  (((9 <=? n) && (n <=? 13)) || ((28 <=? n) && (n <=? 32))
   || (n =? 133) || (n =? 160))%nat.

(** [c.lower()] for a code point below 256. *)
Definition lower_char (c : ascii) : ascii :=
  let n := nat_of_ascii c in
  if (((65 <=? n) && (n <=? 90))
      || ((192 <=? n) && (n <=? 222) && negb (n =? 215)))%nat
  then ascii_of_nat (n + 32) else c.

(** [s.lower()] *)
Fixpoint lower (s : string) : string :=
  match s with
  | EmptyString => EmptyString
  | String c s' => String (lower_char c) (lower s')
  end.

(** [s.lstrip()] *)
Fixpoint lstrip (s : string) : string :=
  match s with
  | EmptyString => EmptyString
  | String c s' => if isspace c then lstrip s' else s
  end.

(** [s.rstrip()] *)
Fixpoint rstrip (s : string) : string :=
  match s with
  | EmptyString => EmptyString
  | String c s' =>
      match rstrip s' with
      | EmptyString => if isspace c then EmptyString else String c EmptyString
      | r => String c r
      end
  end.

(** [s.strip()] *)
Definition strip (s : string) : string := lstrip (rstrip s).

(** [s.split(sep)] for a one-character separator: one piece more than
    there are separators, empty pieces kept. *)
Fixpoint split (sep : ascii) (s : string) : list string :=
  match s with
  | EmptyString => [EmptyString]
  | String c s' =>
      if Ascii.eqb c sep then EmptyString :: split sep s'
      else match split sep s' with
           | [] => [String c EmptyString]
           | piece :: rest => String c piece :: rest
           end
  end.

(** [s.split()] without argument: the maximal runs of non-whitespace. *)
Fixpoint split_ws (s : string) : list string :=
  match s with
  | EmptyString => []
  | String c s' =>
      if isspace c then split_ws s'
      else match s' with
           | EmptyString => [String c EmptyString]
           | String c' _ =>
               if isspace c' then String c EmptyString :: split_ws s'
               else match split_ws s' with
                    | [] => [String c EmptyString]
                    | w :: ws => String c w :: ws
                    end
           end
  end.

(** [sep.join(l)] *)
Fixpoint join (sep : string) (l : list string) : string :=
  match l with
  | [] => EmptyString
  | [x] => x
  | x :: l' => (x ++ sep ++ join sep l')%string
  end.

(** [pat in s] on strings: [pat] occurs as a substring of [s]. *)
Fixpoint contains (pat s : string) : bool :=
  String.prefix pat s
  || match s with
     | EmptyString => false
     | String _ s' => contains pat s'
     end.

(** [x in l] on a list of strings. *)
Definition mem (x : string) (l : list string) : bool :=
  existsb (String.eqb x) l.

(** [l[i]], raising [IndexError] out of range (non-negative [i]). *)
Definition getitem {A : Type} (l : list A) (i : nat) : result A :=
  match nth_error l i with
  | Some x => Ok x
  | None => Raise IndexError
  end.

(** A string made of whitespace only (the empty string included). *)
Fixpoint all_space (s : string) : bool :=
  match s with
  | EmptyString => true
  | String c s' => isspace c && all_space s'
  end.

(** [s.split(sep)] for a separator of two characters [c1 c2]: the text is
    cut at the occurrences of the separator found from left to right. *)
Fixpoint split2 (c1 c2 : ascii) (s : string) : list string :=
  match s with
  | EmptyString => [EmptyString]
  | String a s' =>
      match s' with
      | EmptyString => [String a EmptyString]
      | String b s'' =>
          if Ascii.eqb a c1 && Ascii.eqb b c2
          then EmptyString :: split2 c1 c2 s''
          else match split2 c1 c2 s' with
               | [] => [String a EmptyString]
               | piece :: rest => String a piece :: rest
               end
      end
  end.

(** [c in s] for a character [c]. *)
Fixpoint has_char (c : ascii) (s : string) : bool :=
  match s with
  | EmptyString => false
  | String c' s' => Ascii.eqb c' c || has_char c s'
  end.

(** [s.count(c)] for a character [c]. *)
Fixpoint count_char (c : ascii) (s : string) : nat :=
  match s with
  | EmptyString => 0
  | String c' s' => (if Ascii.eqb c' c then 1 else 0) + count_char c s'
  end.

(** A string without whitespace. *)
Fixpoint no_space (s : string) : bool :=
  match s with
  | EmptyString => true
  | String c s' => negb (Py.isspace c) && no_space s'
  end.

End Py.

(** ** pandas values *)

(** A cell of the table read by [pd.read_csv]: a [str], the missing value
    NaN, or another non-missing scalar (a number, a boolean) carried with
    the text [str] gives for it. *)
Inductive cell : Type :=
| CStr (s : string)
| CNaN
| CObj (text : string).

(** [str(x)] *)
Definition py_str (x : cell) : string :=
  match x with
  | CStr s => s
  | CNaN => "nan"
  | CObj text => text
  end.

(** [pd.isna(x)] *)
Definition isna (x : cell) : bool :=
  match x with
  | CNaN => true
  | _ => false
  end.

(** A [pd.Series]: labelled values in order; labels may repeat. *)
Definition Series (C : Type) : Type := list (string * C).

Definition index {C : Type} (row : Series C) : list string := map fst row.

Definition values {C : Type} (row : Series C) : list C := map snd row.

(** [row[mask]] for a boolean mask: the entries at the positions where the
    mask is [True]. *)
Definition getitem_mask {C : Type} (row : Series C) (mask : list bool)
  : Series C :=
  map snd (filter fst (combine mask row)).

(** [row[labels]] for a list of labels: for each label in turn, every
    entry carrying it. *)
Definition getitem_labels {C : Type} (row : Series C) (labels : list string)
  : Series C :=
  flat_map (fun l => filter (fun kv => String.eqb (fst kv) l) row) labels.

(** [row.apply(f)] *)
Definition series_apply {C B : Type} (f : C -> B) (row : Series C) : list B :=
  map f (values row).

(** ** The Prognostic Summarizer: [generate_prognostic_data] *)

(** The test of line 35 on an entry of the row. *)
Definition is_candidate (kv : string * cell) : bool :=
  Py.contains "Pathology prognostics" (fst kv).

(** Line 35: the entries whose label contains "Pathology prognostics". *)
Definition prognostic_fields (row : Series cell) : Series cell :=
  getitem_mask row
    (map (fun x => Py.contains "Pathology prognostics" x) (index row)).

(** Line 36 *)
Definition prognostics_row (row : Series cell) : Series cell :=
  getitem_labels row (index (prognostic_fields row)).

(** The test of line 37: [prognostic_type in str(x).lower().split()]. *)
Definition has_token (prognostic_type : string) (x : cell) : bool :=
  Py.mem prognostic_type (Py.split_ws (Py.lower (py_str x))).

(** Line 37: the labels of the selected entries. *)
Definition prognostics (row : Series cell) (prognostic_type : string)
  : list string :=
  index (getitem_mask (prognostics_row row)
           (series_apply (has_token prognostic_type) (prognostics_row row))).

(** The function mapped at line 38: [x.split("-")[1].strip()]. *)
Definition cancer_type (x : string) : result string :=
  s <- Py.getitem (Py.split "-" x) 1 ;; Ok (Py.strip s).

(** The sequence joined at line 38. *)
Definition cancer_types (row : Series cell) (prognostic_type : string)
  : result (list string) :=
  map_result cancer_type (prognostics row prognostic_type).

Definition generate_prognostic_data (row : Series cell)
  (prognostic_type : string) : result string :=
  names <- cancer_types row prognostic_type ;; Ok (Py.join "," names).

(** ** The Class Prioritizer: [prioritize_protein_class] *)

Definition protein_class_priority : list string :=
  ["Enzymes"; "Transporters"].

(** Line 52 *)
Definition class_list (protein_classes : string) : list string :=
  map Py.strip (Py.split "," protein_classes).

Definition prioritize_protein_class (protein_classes : string)
  (priority_list : option (list string)) : list string :=
  let priority_list :=
    match priority_list with
    | None => protein_class_priority
    | Some l => l
    end in
  let class_list := class_list protein_classes in
  let prioritized_protein_classes :=
    filter (fun x => Py.mem x class_list) priority_list in
  match prioritized_protein_classes with
  | [] => class_list
  | _ :: _ => prioritized_protein_classes
  end.

(** ** pandas tables *)

(** A [pd.DataFrame]: the column names and, per record, one cell for each
    column. *)
Record DataFrame (C : Type) : Type := mkFrame {
  columns : list string;
  records : list (list C)
}.

Arguments mkFrame {C} columns records.
Arguments columns {C} d.
Arguments records {C} d.

(** The row handed to the function of [data.apply(f, axis=1)]. *)
Definition row_series {C : Type} (cols : list string) (r : list C)
  : Series C :=
  combine cols r.

(** [data.apply(f, axis=1)] *)
Definition apply_rows {C B : Type} (f : Series C -> result B)
  (data : DataFrame C) : result (list B) :=
  map_result (fun r => f (row_series (columns data) r)) (records data).

(** The position of a column name. *)
Fixpoint position (name : string) (cols : list string) : option nat :=
  match cols with
  | [] => None
  | c :: cols' =>
      if String.eqb c name then Some 0
      else option_map S (position name cols')
  end.

Fixpoint list_set {C : Type} (i : nat) (v : C) (r : list C) : list C :=
  match r, i with
  | [], _ => []
  | _ :: r', 0 => v :: r'
  | x :: r', S i' => x :: list_set i' v r'
  end.

(** The column names after an assignment to the column [name]: unchanged
    when it exists, with [name] added last otherwise. *)
Definition set_name (name : string) (cols : list string) : list string :=
  match position name cols with
  | Some _ => cols
  | None => cols ++ [name]
  end.

(** The same assignment on one record. *)
Definition set_cell {C : Type} (name : string) (cols : list string) (v : C)
  (r : list C) : list C :=
  match position name cols with
  | Some i => list_set i v r
  | None => r ++ [v]
  end.

(** [data[name] = vals]: an existing column is overwritten in place, a new
    one is appended as the last column. *)
Definition set_column {C : Type} (name : string) (vals : list C)
  (data : DataFrame C) : DataFrame C :=
  mkFrame (set_name name (columns data))
    (map (fun rv => set_cell name (columns data) (snd rv) (fst rv))
         (combine (records data) vals)).

(** The cell of record [r] in column [name]. *)
Definition cell_at {C : Type} (name : string) (cols : list string)
  (r : list C) : option C :=
  match position name cols with
  | Some i => nth_error r i
  | None => None
  end.

(** [data[name]] *)
Definition get_column {C : Type} (name : string) (data : DataFrame C)
  : result (list (option C)) :=
  match position name (columns data) with
  | Some i => Ok (map (fun r => nth_error r i) (records data))
  | None => Raise (KeyError name)
  end.

(** The records kept by [dropna]: those whose cell in the column is
    present. *)
Definition present_at (i : nat) (r : list cell) : bool :=
  match nth_error r i with
  | Some x => negb (isna x)
  | None => false
  end.

(** [data.dropna(subset=[name], inplace=True)] *)
Definition dropna (name : string) (data : DataFrame cell)
  : result (DataFrame cell) :=
  match position name (columns data) with
  | Some i => Ok (mkFrame (columns data) (filter (present_at i) (records data)))
  | None => Raise (KeyError name)
  end.

(** A cell of the prepared table: a cell of the source table or a list of
    class labels. *)
Inductive dcell : Type :=
| Scalar (x : cell)
| ClassList (l : list string).

Definition map_frame {C D : Type} (f : C -> D) (data : DataFrame C)
  : DataFrame D :=
  mkFrame (columns data) (map (map f) (records data)).

(** ** The Dataset Loader: [load_data] *)

(** The names of the derived columns. *)
Local Abbreviation FAV := "Favorable prognostics".
Local Abbreviation UNFAV := "Unfavorable prognostics".
Local Abbreviation PPC := "Prioritized Protein Class".

(** [prioritize_protein_class] applied to one cell of "Protein class":
    anything but a [str] has no [split]. *)
Definition prioritize_cell (x : option cell) : result (list string) :=
  match x with
  | Some (CStr s) => Ok (prioritize_protein_class s None)
  | _ => Raise AttributeError
  end.

(** Lines 66-70: the preparation of the table once it has been read. *)
Definition prepare (data : DataFrame cell) : result (DataFrame dcell) :=
  fav <- apply_rows (fun row => generate_prognostic_data row "favorable")
           data ;;
  let data := set_column FAV (map CStr fav) data in
  unfav <- apply_rows (fun row => generate_prognostic_data row "unfavorable")
             data ;;
  let data := set_column UNFAV (map CStr unfav) data in
  data <- dropna "Uniprot" data ;;
  classes <- get_column "Protein class" data ;;
  prioritized <- map_result prioritize_cell classes ;;
  Ok (set_column PPC (map ClassList prioritized)
        (map_frame Scalar data)).

(** The process and its environment: what the remote resource currently
    yields, how many times it has been fetched, and the value memoised for
    [load_data]. *)
Record World : Type := mkWorld {
  remote : result (DataFrame cell);
  fetches : nat;
  cache : option (DataFrame dcell)
}.

(** Line 65: [pd.read_csv(url, ...)]; a network or parse failure is the
    exception the remote resource yields. *)
Definition read_csv (w : World) : result (DataFrame cell) * World :=
  (remote w, mkWorld (remote w) (S (fetches w)) (cache w)).

(** The body of [load_data], lines 65-70. *)
Definition load_data_body (w : World) : result (DataFrame dcell) * World :=
  let (r, w') := read_csv w in
  (data <- r ;; prepare data, w').

(** Modelled from the spec: the decorator [st.cache_data] of line 59
    belongs to the Streamlit library, which is not part of the sources.
    Following section 4.3, the value the body returns is computed at most
    once and kept until the cache is invalidated; repeated calls return the
    kept value without running the body; an exception is not kept. *)
Definition cache_data
  (body : World -> result (DataFrame dcell) * World) (w : World)
  : result (DataFrame dcell) * World :=
  match cache w with
  | Some d => (Ok d, w)
  | None =>
      let (r, w') := body w in
      match r with
      | Ok d => (Ok d, mkWorld (remote w') (fetches w') (Some d))
      | Raise e => (Raise e, w')
      end
  end.

Definition load_data : World -> result (DataFrame dcell) * World :=
  cache_data load_data_body.

(** Explicit invalidation of the cache ([load_data.clear()]). *)
Definition clear_cache (w : World) : World :=
  mkWorld (remote w) (fetches w) None.

(** What the environment may do between two calls: the remote content
    changes, the process state does not. *)
Definition set_remote (r : result (DataFrame cell)) (w : World) : World :=
  mkWorld r (fetches w) (cache w).

(** A table as [pd.read_csv] yields it: distinct column names and one cell
    per column in every record. *)
Definition well_formed {C : Type} (data : DataFrame C) : Prop :=
  NoDup (columns data)
  /\ Forall (fun r => List.length r = List.length (columns data))
       (records data).

(** What an output record [r] owes to the source record [r0] it comes
    from: a present identifier, the source cells under the source column
    names, and the three derived columns. *)
Definition retained (cols cols' : list string) (r0 : list cell)
  (r : list dcell) : Prop :=
  (exists u, cell_at "Uniprot" cols' r = Some (Scalar u) /\ isna u = false)
  /\ (forall name,
        name <> "Favorable prognostics" ->
        name <> "Unfavorable prognostics" ->
        name <> "Prioritized Protein Class" ->
        cell_at name cols' r = option_map Scalar (cell_at name cols r0))
  /\ (exists f u p,
        cell_at "Favorable prognostics" cols' r = Some (Scalar (CStr f))
        /\ cell_at "Unfavorable prognostics" cols' r = Some (Scalar (CStr u))
        /\ cell_at "Prioritized Protein Class" cols' r = Some (ClassList p)).

(** ** The page: [main] *)

(** Lines 86-87: the "Protein class" texts of the loaded table, each split
    on ", ", and the pieces put in one list. *)
Definition protein_class_pieces (classes : list string) : list string :=
  flat_map (fun x => Py.split2 "," " " x) classes.

(** Lines 93-94: what the [map] over the filtered column names yields when
    the select box reads it to the end. *)
Definition cancer_type_options (cols : list string) : result (list string) :=
  map_result cancer_type
    (filter (fun x => Py.contains "Pathology prognostics" x) cols).

(** A small table in the shape of the source table. *)
Definition sample_table : DataFrame cell :=
  mkFrame
    ["Gene"; "Uniprot"; "Protein class";
     "Pathology prognostics - Liver cancer"]
    [[CStr "ABC1"; CStr "P11111"; CStr "Transporters, Enzymes";
      CStr "prognostic favorable (1.0e-4)"];
     [CStr "DEF2"; CNaN; CNaN; CStr "prognostic unfavorable (2.0e-5)"];
     [CStr "GHI3"; CStr "P33333"; CStr "Plasma proteins"; CNaN]].

(** The table the loader makes of it. *)
Definition sample_prepared : DataFrame dcell :=
  mkFrame
    ["Gene"; "Uniprot"; "Protein class";
     "Pathology prognostics - Liver cancer"; "Favorable prognostics";
     "Unfavorable prognostics"; "Prioritized Protein Class"]
    [[Scalar (CStr "ABC1"); Scalar (CStr "P11111");
      Scalar (CStr "Transporters, Enzymes");
      Scalar (CStr "prognostic favorable (1.0e-4)");
      Scalar (CStr "Liver cancer"); Scalar (CStr "");
      ClassList ["Enzymes"; "Transporters"]];
     [Scalar (CStr "GHI3"); Scalar (CStr "P33333");
      Scalar (CStr "Plasma proteins"); Scalar CNaN;
      Scalar (CStr ""); Scalar (CStr "");
      ClassList ["Plasma proteins"]]].

(** ** The specification's wording *)

Module Spec.

(** The text after the first [sep] of [s], when [s] has one. *)
Fixpoint after_first (sep : ascii) (s : string) : option string :=
  match s with
  | EmptyString => None
  | String c s' => if Ascii.eqb c sep then Some s' else after_first sep s'
  end.

(** The text before the first [sep] of [s]; all of [s] when it has none. *)
Fixpoint before_first (sep : ascii) (s : string) : string :=
  match s with
  | EmptyString => EmptyString
  | String c s' =>
      if Ascii.eqb c sep then EmptyString
      else String c (before_first sep s')
  end.

(** Section 4.1: the column name split on the first "-", the second
    segment (everything after that "-"), trimmed. *)
Definition cancer_type (x : string) : option string :=
  option_map Py.strip (after_first "-" x).

End Spec.

(** * Examples *)

Example split_comma :
  Py.split "," "Transporters, Enzymes" = ["Transporters"; " Enzymes"].
Proof. reflexivity. Qed.

Example split_dash_two :
  Py.split "-" "a-b-c" = ["a"; "b"; "c"].
Proof. reflexivity. Qed.

Example split_ws_runs :
  Py.split_ws "  prognostic   favorable (1.2e-3) " =
  ["prognostic"; "favorable"; "(1.2e-3)"].
Proof. reflexivity. Qed.

Example strip_both : Py.strip "  Liver cancer " = "Liver cancer".
Proof. reflexivity. Qed.

Example lower_mixed : Py.lower "UnFavorable" = "unfavorable".
Proof. reflexivity. Qed.

Example join_three : Py.join "," ["a"; "b"; "c"] = "a,b,c".
Proof. reflexivity. Qed.

(** * Properties *)

(** ** Facts about the string operations *)

Section StringFacts.

Lemma prefix_iff (pat s : string) :
  String.prefix pat s = true <-> exists post, s = (pat ++ post)%string.
Proof.
  revert s; induction pat as [|a pat IH]; intros s.
  - destruct s; simpl; split; intros _; eauto.
  - destruct s as [|b s]; simpl.
    + split; [discriminate | intros [post H]; discriminate].
    + destruct (ascii_dec a b) as [->|Hab].
      * rewrite IH. split; intros [post H]; exists post.
        -- now rewrite H.
        -- now injection H.
      * split; [discriminate|].
        intros [post H]. injection H as H1 _. congruence.
Qed.

(** [pat in s] holds exactly when [s] is some text, then [pat], then some
    text. *)
Lemma contains_iff (pat s : string) :
  Py.contains pat s = true
  <-> exists pre post, s = (pre ++ pat ++ post)%string.
Proof.
  induction s as [|c s IH].
  - cbn [Py.contains]. rewrite orb_false_r, prefix_iff. split.
    + intros [post H]. now exists EmptyString, post.
    + intros [pre [post H]]. destruct pre; [now exists post | discriminate].
  - cbn [Py.contains]. rewrite orb_true_iff, prefix_iff, IH. split.
    + intros [[post H]|[pre [post H]]].
      * now exists EmptyString, post.
      * exists (String c pre), post. simpl. now rewrite H.
    + intros [pre [post H]]. destruct pre as [|c' pre].
      * left. now exists post.
      * right. exists pre, post. simpl in H. now injection H.
Qed.

Lemma split_not_nil (sep : ascii) (s : string) : Py.split sep s <> [].
Proof.
  destruct s as [|c s]; simpl; [discriminate|].
  destruct (Ascii.eqb c sep); [discriminate|].
  destruct (Py.split sep s); discriminate.
Qed.


(** No piece holds the separator. *)
Lemma split_pieces (sep : ascii) (s : string) :
  Forall (fun piece => Py.has_char sep piece = false) (Py.split sep s).
Proof.
  induction s as [|c s IH]; simpl.
  - now constructor.
  - destruct (Ascii.eqb c sep) eqn:Hc.
    + now constructor.
    + destruct (Py.split sep s) as [|p rest].
      * constructor; [simpl; now rewrite Hc | constructor].
      * inversion IH; subst. constructor; [simpl; now rewrite Hc | assumption].
Qed.

(** One piece more than there are separators. *)
Lemma split_length (sep : ascii) (s : string) :
  List.length (Py.split sep s) = S (Py.count_char sep s).
Proof.
  induction s as [|c s IH]; simpl; [reflexivity|].
  destruct (Ascii.eqb c sep); simpl.
  - now rewrite IH.
  - generalize (split_not_nil sep s). rewrite <- IH.
    destruct (Py.split sep s); [congruence | reflexivity].
Qed.

Lemma split_no_sep (sep : ascii) (s : string) :
  Py.has_char sep s = false -> Py.split sep s = [s].
Proof.
  induction s as [|c s IH]; simpl; [reflexivity|].
  intros H. apply orb_false_iff in H as [Hc Hs].
  rewrite Hc, (IH Hs). reflexivity.
Qed.

Lemma has_char_count (c : ascii) (s : string) :
  Py.has_char c s = true <-> 1 <= Py.count_char c s.
Proof.
  induction s as [|c' s IH]; simpl.
  - split; [discriminate | lia].
  - destruct (Ascii.eqb c' c); simpl; [split; [lia | reflexivity] | exact IH].
Qed.

Lemma has_char_contains (c : ascii) (s : string) :
  Py.has_char c s = Py.contains (String c EmptyString) s.
Proof.
  induction s as [|c' s IH]; [reflexivity|].
  cbn [Py.has_char Py.contains String.prefix]. rewrite IH. f_equal.
  destruct (ascii_dec c c') as [->|Hn].
  - rewrite Ascii.eqb_refl. now destruct s.
  - destruct (Ascii.eqb_spec c' c); congruence.
Qed.

Lemma rstrip_all_space (s : string) :
  Py.all_space s = true -> Py.rstrip s = EmptyString.
Proof.
  induction s as [|c s IH]; simpl; [reflexivity|].
  intros H. apply andb_true_iff in H as [Hc Hs].
  now rewrite (IH Hs), Hc.
Qed.

Lemma strip_all_space (s : string) :
  Py.all_space s = true -> Py.strip s = EmptyString.
Proof.
  intros H. unfold Py.strip. now rewrite rstrip_all_space.
Qed.

Lemma all_space_no_char (c : ascii) (s : string) :
  Py.isspace c = false -> Py.all_space s = true -> Py.has_char c s = false.
Proof.
  intros Hc. induction s as [|c' s IH]; simpl; [reflexivity|].
  intros H. apply andb_true_iff in H as [Hc' Hs].
  rewrite (IH Hs), orb_false_r.
  destruct (Ascii.eqb_spec c' c); [congruence | reflexivity].
Qed.

(** The tokens of [s.split()] are not empty and hold no whitespace. *)
Lemma split_ws_tokens (s : string) :
  Forall (fun w => w <> EmptyString /\ Py.no_space w = true) (Py.split_ws s).
Proof.
  induction s as [|c s IH]; simpl; [constructor|].
  destruct (Py.isspace c) eqn:Hc; [assumption|].
  destruct s as [|c' s'].
  - constructor; [|constructor]. split; [discriminate | simpl; now rewrite Hc].
  - destruct (Py.isspace c') eqn:Hc'.
    + constructor; [|assumption].
      split; [discriminate | simpl; now rewrite Hc].
    + destruct (Py.split_ws (String c' s')) as [|w ws].
      * constructor; [|constructor].
        split; [discriminate | simpl; now rewrite Hc].
      * inversion IH as [|? ? [_ Hw] Hws]; subst.
        constructor; [|assumption].
        split; [discriminate | simpl; now rewrite Hc, Hw].
Qed.

Lemma mem_iff (x : string) (l : list string) :
  Py.mem x l = true <-> In x l.
Proof.
  unfold Py.mem. rewrite existsb_exists. split.
  - intros [y [Hy Heq]]. apply String.eqb_eq in Heq. now subst.
  - intros H. exists x. split; [assumption | apply String.eqb_refl].
Qed.

End StringFacts.

(** ** Facts about results *)

Section ResultFacts.

Context {A B : Type} (f : A -> result B).

Lemma map_result_ok_iff (l : list A) :
  (exists l', map_result f l = Ok l')
  <-> Forall (fun x => exists y, f x = Ok y) l.
Proof.
  induction l as [|x l IH]; simpl.
  - split; [constructor | eauto].
  - split.
    + intros [l' H]. destruct (f x) as [y|e] eqn:Hx; [|discriminate].
      simpl in H. destruct (map_result f l) as [ys|e] eqn:Hl; [|discriminate].
      constructor; [eauto | apply IH; eauto].
    + intros H. inversion H as [|? ? [y Hy] Hl]; subst.
      apply IH in Hl as [ys Hys]. rewrite Hy, Hys. simpl. eauto.
Qed.

Lemma map_result_Forall2 (l : list A) (l' : list B) :
  map_result f l = Ok l' -> Forall2 (fun x y => f x = Ok y) l l'.
Proof.
  revert l'; induction l as [|x l IH]; simpl; intros l' H.
  - injection H as <-. constructor.
  - destruct (f x) as [y|e] eqn:Hx; [|discriminate]. simpl in H.
    destruct (map_result f l) as [ys|e] eqn:Hl; [|discriminate].
    injection H as <-. constructor; auto.
Qed.

Lemma map_result_In (l : list A) (l' : list B) (y : B) :
  map_result f l = Ok l' ->
  (In y l' <-> exists x, In x l /\ f x = Ok y).
Proof.
  intros H. apply map_result_Forall2 in H.
  induction H as [|x y' l l' Hxy _ IH]; simpl.
  - split; [tauto | intros [x [[] _]]].
  - rewrite IH. split.
    + intros [->|[x0 [Hin Hf]]]; eauto.
    + intros [x0 [[->|Hin] Hf]]; [left; congruence | eauto].
Qed.

Lemma map_result_length (l : list A) (l' : list B) :
  map_result f l = Ok l' -> List.length l' = List.length l.
Proof.
  intros H. apply map_result_Forall2 in H.
  induction H; simpl; congruence.
Qed.

Lemma map_result_raise (l : list A) (e : exn) :
  map_result f l = Raise e -> exists x, In x l /\ f x = Raise e.
Proof.
  induction l as [|x l IH]; simpl; [discriminate|].
  destruct (f x) as [y|e'] eqn:Hx; simpl.
  - destruct (map_result f l) as [ys|e'] eqn:Hl; simpl; [discriminate|].
    intros H; injection H as ->. destruct (IH eq_refl) as [x0 [Hin Hf]]. eauto.
  - intros H; injection H as ->. eauto.
Qed.

End ResultFacts.

(** ** Facts about series *)

Section SeriesFacts.

Lemma filter_nil_iff {A : Type} (g : A -> bool) (l : list A) :
  filter g l = [] <-> forall x, In x l -> g x = false.
Proof.
  induction l as [|a l IH]; simpl; [tauto|].
  destruct (g a) eqn:Ha.
  - split; [discriminate|]. intros H. rewrite (H a) in Ha; [discriminate|auto].
  - rewrite IH. split.
    + intros H x [<-|Hx]; auto.
    + intros H x Hx. auto.
Qed.

Context {C : Type}.

Lemma getitem_mask_map (g : string * C -> bool) (row : Series C) :
  getitem_mask row (map g row) = filter g row.
Proof.
  unfold getitem_mask. induction row as [|kv row IH]; simpl; [reflexivity|].
  destruct (g kv); simpl; now rewrite IH.
Qed.

Lemma In_getitem_labels (row : Series C) (labels : list string)
  (kv : string * C) :
  In kv (getitem_labels row labels) <-> In (fst kv) labels /\ In kv row.
Proof.
  unfold getitem_labels. rewrite in_flat_map. split.
  - intros [l [Hl Hkv]]. apply filter_In in Hkv as [Hkv Heq].
    apply String.eqb_eq in Heq. subst. auto.
  - intros [Hl Hkv]. exists (fst kv). split; [assumption|].
    apply filter_In. split; [assumption | apply String.eqb_refl].
Qed.

Lemma In_index (row : Series C) (n : string) :
  In n (index row) <-> exists v, In (n, v) row.
Proof.
  unfold index. rewrite in_map_iff. split.
  - intros [[n' v] [Heq Hin]]. simpl in Heq. subst. eauto.
  - intros [v Hin]. now exists (n, v).
Qed.

Lemma filter_label_unique (row : Series C) (kv : string * C) :
  NoDup (index row) -> In kv row ->
  filter (fun kv' => String.eqb (fst kv') (fst kv)) row = [kv].
Proof.
  unfold index. induction row as [|kv0 row IH]; simpl; [tauto|].
  intros Hnd. inversion Hnd as [|? ? Hnotin Hrow]; subst.
  intros [->|Hin].
  - rewrite String.eqb_refl. f_equal. apply filter_nil_iff.
    intros kv' Hkv'. destruct (String.eqb_spec (fst kv') (fst kv)) as [E|];
      [|reflexivity].
    exfalso. apply Hnotin. rewrite <- E. now apply in_map.
  - destruct (String.eqb_spec (fst kv0) (fst kv)) as [E|_]; [|auto].
    exfalso. apply Hnotin. rewrite E. now apply in_map.
Qed.

(** With distinct labels, selecting the labels of some entries of the row
    gives these entries back. *)
Lemma getitem_labels_unique (row l : Series C) :
  NoDup (index row) -> incl l row -> getitem_labels row (index l) = l.
Proof.
  intros Hnd. unfold getitem_labels.
  induction l as [|kv l IH]; simpl; intros Hincl; [reflexivity|].
  rewrite filter_label_unique by (auto; apply Hincl; now left).
  simpl. f_equal. apply IH. intros x Hx. apply Hincl. now right.
Qed.

End SeriesFacts.

(** ** The Prognostic Summarizer *)

Section Summarizer.

Lemma prognostic_fields_filter (row : Series cell) :
  prognostic_fields row = filter is_candidate row.
Proof.
  unfold prognostic_fields, index. rewrite map_map.
  apply (getitem_mask_map is_candidate).
Qed.

Lemma prognostics_filter (row : Series cell) (pt : string) :
  prognostics row pt =
  index (filter (fun kv => has_token pt (snd kv)) (prognostics_row row)).
Proof.
  unfold prognostics, series_apply, values. rewrite map_map.
  now rewrite (getitem_mask_map (fun kv => has_token pt (snd kv))).
Qed.

Lemma In_prognostics_row (row : Series cell) (n : string) (v : cell) :
  In (n, v) (prognostics_row row)
  <-> In (n, v) row /\ Py.contains "Pathology prognostics" n = true.
Proof.
  unfold prognostics_row. rewrite In_getitem_labels, prognostic_fields_filter.
  simpl. rewrite In_index. split.
  - intros [[v' Hv'] Hin]. apply filter_In in Hv' as [_ Hc]. auto.
  - intros [Hin Hc]. split; [|assumption].
    exists v. apply filter_In. auto.
Qed.

(** The labels selected at line 37 are those of the entries of the row
    whose label contains the phrase and whose cell holds the token. *)
Lemma In_prognostics (row : Series cell) (pt n : string) :
  In n (prognostics row pt)
  <-> exists v, In (n, v) row
                /\ Py.contains "Pathology prognostics" n = true
                /\ has_token pt v = true.
Proof.
  rewrite prognostics_filter, In_index. split.
  - intros [v Hv]. apply filter_In in Hv as [Hin Ht].
    apply In_prognostics_row in Hin as [Hin Hc]. eauto.
  - intros [v [Hin [Hc Ht]]]. exists v. apply filter_In.
    split; [now apply In_prognostics_row | assumption].
Qed.

(** For a row with distinct labels, line 36 changes nothing and the labels
    kept at line 37 come in the order of the columns. *)
Lemma prognostics_unique_labels (row : Series cell) (pt : string) :
  NoDup (index row) ->
  prognostics_row row = prognostic_fields row
  /\ prognostics row pt =
     index (filter (fun kv => has_token pt (snd kv))
              (filter is_candidate row)).
Proof.
  intros Hnd.
  assert (E : prognostics_row row = prognostic_fields row).
  { unfold prognostics_row. apply getitem_labels_unique; [assumption|].
    rewrite prognostic_fields_filter. intros kv Hkv.
    now apply filter_In in Hkv. }
  split; [exact E|].
  now rewrite prognostics_filter, E, prognostic_fields_filter.
Qed.

Lemma cancer_type_ok_iff (n : string) :
  (exists c, cancer_type n = Ok c) <-> Py.contains "-" n = true.
Proof.
  rewrite <- has_char_contains, has_char_count.
  unfold cancer_type, Py.getitem.
  pose proof (split_length "-" n) as Hlen.
  destruct (Py.split "-" n) as [|p [|q rest]]; simpl in *.
  - discriminate.
  - split; [intros [c H]; discriminate | lia].
  - split; [lia | eauto].
Qed.

Lemma cancer_type_raise (n : string) (e : exn) :
  cancer_type n = Raise e -> e = IndexError.
Proof.
  unfold cancer_type, Py.getitem.
  destruct (nth_error (Py.split "-" n) 1); simpl; congruence.
Qed.

Lemma generate_prognostic_data_join (row : Series cell) (pt s : string) :
  generate_prognostic_data row pt = Ok s
  <-> exists l, cancer_types row pt = Ok l /\ s = Py.join "," l.
Proof.
  unfold generate_prognostic_data.
  destruct (cancer_types row pt) as [l|e]; simpl.
  - split; [intros H; injection H as <-; eauto|].
    intros [l' [H ->]]. now injection H as ->.
  - split; [discriminate | intros [l' [H _]]; discriminate].
Qed.

End Summarizer.

Section SummarizerClaims.

Lemma split_first (sep : ascii) (s : string) :
  Py.split sep s =
  Spec.before_first sep s ::
  match Spec.after_first sep s with
  | Some rest => Py.split sep rest
  | None => []
  end.
Proof.
  induction s as [|c s IH]; simpl; [reflexivity|].
  destruct (Ascii.eqb c sep); [reflexivity|]. now rewrite IH.
Qed.

Lemma after_first_count (sep : ascii) (s : string) (k : nat) :
  Py.count_char sep s = S k ->
  exists rest, Spec.after_first sep s = Some rest
               /\ Py.count_char sep rest = k.
Proof.
  induction s as [|c s IH]; simpl; [discriminate|].
  destruct (Ascii.eqb c sep); simpl.
  - intros H. injection H as H. eauto.
  - exact IH.
Qed.

Lemma before_first_no_sep (sep : ascii) (s : string) :
  Py.count_char sep s = 0 -> Spec.before_first sep s = s.
Proof.
  induction s as [|c s IH]; simpl; [reflexivity|].
  destruct (Ascii.eqb c sep); simpl; [discriminate|].
  intros H. now rewrite IH.
Qed.

Lemma unique_value {C : Type} (row : Series C) (n : string) (v v' : C) :
  NoDup (index row) -> In (n, v) row -> In (n, v') row -> v = v'.
Proof.
  unfold index. induction row as [|[m w] row IH]; simpl; [tauto|].
  intros Hnd. inversion Hnd as [|? ? Hm Hrow]; subst.
  intros [H|H] [H'|H'].
  - congruence.
  - injection H as -> ->. exfalso. apply Hm.
    change n with (fst (n, v')). now apply in_map.
  - injection H' as -> ->. exfalso. apply Hm.
    change n with (fst (n, v)). now apply in_map.
  - auto.
Qed.

Lemma no_token_empty_summary (row : Series cell) (pt : string) :
  (forall n v, In (n, v) row ->
               Py.contains "Pathology prognostics" n = true ->
               has_token pt v = false) ->
  generate_prognostic_data row pt = Ok "".
Proof.
  intros H. unfold generate_prognostic_data, cancer_types.
  destruct (prognostics row pt) as [|n l] eqn:E; [reflexivity|].
  assert (Hin : In n (prognostics row pt)) by (rewrite E; now left).
  apply In_prognostics in Hin as [v [Hin [Hc Ht]]].
  rewrite (H n v Hin Hc) in Ht. discriminate.
Qed.

Lemma summarizer_returns (row : Series cell) (pt : string) :
  (forall n v, In (n, v) row ->
               Py.contains "Pathology prognostics" n = true ->
               has_token pt v = true ->
               Py.contains "-" n = true) ->
  exists s, generate_prognostic_data row pt = Ok s.
Proof.
  intros H.
  assert (Hok : exists l, cancer_types row pt = Ok l).
  { apply map_result_ok_iff, Forall_forall. intros n Hn.
    apply In_prognostics in Hn as [v [Hin [Hc Ht]]].
    apply cancer_type_ok_iff. eauto. }
  destruct Hok as [l Hl]. exists (Py.join "," l).
  apply generate_prognostic_data_join. eauto.
Qed.

(** C1, counterexample: a column named "Pathology prognostics", without
    "-", whose cell holds the polarity token makes the summarizer fail
    with [IndexError] instead of being left out. *)
Lemma malformed_column_raises :
  generate_prognostic_data [("Pathology prognostics", CStr "favorable")]
    "favorable" = Raise IndexError.
Proof. reflexivity. Qed.

(** C1, amended: the summarizer returns a summary exactly when every column
    whose name contains "Pathology prognostics" and whose cell holds the
    polarity token has a "-" in its name; otherwise it raises [IndexError].
    So a candidate column without "-" is passed over without error when
    its cell does not hold the token, and not otherwise. *)
Theorem summarizer_returns_iff (row : Series cell) (pt : string) :
  ((exists s, generate_prognostic_data row pt = Ok s)
   <-> (forall n v, In (n, v) row ->
                    Py.contains "Pathology prognostics" n = true ->
                    has_token pt v = true ->
                    Py.contains "-" n = true))
  /\ ((exists s, generate_prognostic_data row pt = Ok s)
      \/ generate_prognostic_data row pt = Raise IndexError).
Proof.
  split.
  - split.
    + intros [s Hs]. apply generate_prognostic_data_join in Hs as [l [Hl _]].
      intros n v Hin Hc Ht.
      assert (Hok : exists l', cancer_types row pt = Ok l') by eauto.
      apply map_result_ok_iff in Hok. rewrite Forall_forall in Hok.
      apply cancer_type_ok_iff, Hok, In_prognostics. eauto.
    + apply summarizer_returns.
  - unfold generate_prognostic_data.
    destruct (cancer_types row pt) as [l|e] eqn:E; simpl; [eauto|].
    right. apply map_result_raise in E as [n [_ Hn]].
    now rewrite (cancer_type_raise n e Hn).
Qed.

(** C2, counterexample: for the column "Liver cancer-Pathology prognostics"
    with cell "unfavorable" the unfavorable summary is "Pathology
    prognostics", in which "Liver cancer" does not occur; and for a name
    with two "-" the cancer type is the text between them, not everything
    after the first. *)
Lemma liver_cancer_not_in_summary :
  generate_prognostic_data
    [("Liver cancer-Pathology prognostics", CStr "unfavorable")]
    "unfavorable" = Ok "Pathology prognostics"
  /\ Py.contains "Liver cancer" "Pathology prognostics" = false
  /\ cancer_type "Pathology prognostics - Non-small cell lung cancer"
     = Ok "Non"
  /\ Spec.cancer_type "Pathology prognostics - Non-small cell lung cancer"
     = Some "Non-small cell lung cancer".
Proof. repeat split; reflexivity. Qed.

(** C2, amended: for a column name with a "-", the cancer type emitted is
    the text between the first "-" and the next one (or the end of the
    name), trimmed, and a name without "-" raises [IndexError]; for a name
    with exactly one "-" this is everything after that "-", trimmed. For a
    row with column "Pathology prognostics - Liver cancer" whose cell is
    "unfavorable", the unfavorable summary is "Liver cancer". *)
Theorem cancer_type_second_segment (n : string) :
  cancer_type n =
    match Spec.after_first "-" n with
    | Some rest => Ok (Py.strip (Spec.before_first "-" rest))
    | None => Raise IndexError
    end
  /\ (Py.count_char "-" n = 1 ->
      exists c, Spec.cancer_type n = Some c /\ cancer_type n = Ok c)
  /\ generate_prognostic_data
       [("Pathology prognostics - Liver cancer", CStr "unfavorable")]
       "unfavorable" = Ok "Liver cancer".
Proof.
  assert (Hct : cancer_type n =
    match Spec.after_first "-" n with
    | Some rest => Ok (Py.strip (Spec.before_first "-" rest))
    | None => Raise IndexError
    end).
  { unfold cancer_type, Py.getitem. rewrite split_first.
    destruct (Spec.after_first "-" n) as [rest|]; [|reflexivity].
    now rewrite split_first. }
  split; [exact Hct|]. split; [|reflexivity].
  intros H1. rewrite Hct. unfold Spec.cancer_type.
  apply after_first_count in H1 as [rest [-> H0]]. simpl.
  rewrite (before_first_no_sep _ _ H0). eauto.
Qed.

Lemma cancer_type_second_segment_witness :
  exists c,
    Spec.cancer_type "Pathology prognostics - Liver cancer" = Some c
    /\ cancer_type "Pathology prognostics - Liver cancer" = Ok c.
Proof.
  apply (proj1 (proj2
    (cancer_type_second_segment "Pathology prognostics - Liver cancer"))).
  reflexivity.
Defined.

End SummarizerClaims.

Section PolarityClaims.

(** C5, counterexample: a cell holding both tokens puts its cancer type in
    the favorable and in the unfavorable summary. *)
Lemma both_tokens_both_summaries :
  let row := [("Pathology prognostics - Liver cancer",
               CStr "favorable unfavorable")] in
  cancer_types row "favorable" = Ok ["Liver cancer"]
  /\ cancer_types row "unfavorable" = Ok ["Liver cancer"]
  /\ generate_prognostic_data row "favorable" = Ok "Liver cancer"
  /\ generate_prognostic_data row "unfavorable" = Ok "Liver cancer".
Proof. repeat split; reflexivity. Qed.

(** Two columns may also share a cancer type and differ in polarity. *)
Example shared_cancer_type_both_summaries :
  let row := [("Pathology prognostics - Liver cancer - a", CStr "favorable");
              ("Pathology prognostics - Liver cancer - b",
               CStr "unfavorable")] in
  generate_prognostic_data row "favorable" = Ok "Liver cancer"
  /\ generate_prognostic_data row "unfavorable" = Ok "Liver cancer".
Proof. split; reflexivity. Qed.

(** C5, amended: for a record with distinct column names in which no
    pathology cell holds both the favorable and the unfavorable token and
    distinct pathology columns give distinct cancer types, no cancer type
    is listed in both polarity summaries. *)
Theorem polarity_summaries_disjoint (row : Series cell)
  (lf lu : list string) :
  NoDup (index row) ->
  (forall n v, In (n, v) row ->
               Py.contains "Pathology prognostics" n = true ->
               has_token "favorable" v = true ->
               has_token "unfavorable" v = false) ->
  (forall n n' c, In n (index row) -> In n' (index row) ->
                  Py.contains "Pathology prognostics" n = true ->
                  Py.contains "Pathology prognostics" n' = true ->
                  cancer_type n = Ok c -> cancer_type n' = Ok c -> n = n') ->
  cancer_types row "favorable" = Ok lf ->
  cancer_types row "unfavorable" = Ok lu ->
  generate_prognostic_data row "favorable" = Ok (Py.join "," lf)
  /\ generate_prognostic_data row "unfavorable" = Ok (Py.join "," lu)
  /\ forall c, In c lf -> In c lu -> False.
Proof.
  intros Hnd Hone Hinj Hf Hu.
  split; [apply generate_prognostic_data_join; eauto|].
  split; [apply generate_prognostic_data_join; eauto|].
  intros c Hcf Hcu.
  apply (map_result_In cancer_type _ _ c Hf) in Hcf as [n [Hn Hnc]].
  apply (map_result_In cancer_type _ _ c Hu) in Hcu as [n' [Hn' Hnc']].
  apply In_prognostics in Hn as [v [Hin [Hc Ht]]].
  apply In_prognostics in Hn' as [v' [Hin' [Hc' Ht']]].
  assert (n = n') as <-.
  { apply (Hinj n n' c); auto; apply In_index; eauto. }
  rewrite (unique_value row n v v' Hnd Hin Hin') in *.
  rewrite (Hone n v' Hin' Hc Ht) in Ht'. discriminate.
Qed.

Lemma polarity_summaries_disjoint_witness :
  let row := [("Gene", CStr "TP53");
              ("Pathology prognostics - Liver cancer",
               CStr "prognostic unfavorable (1.2e-4)");
              ("Pathology prognostics - Renal cancer",
               CStr "prognostic favorable (3.0e-5)");
              ("Pathology prognostics - Breast cancer", CNaN)] in
  generate_prognostic_data row "favorable" = Ok "Renal cancer"
  /\ generate_prognostic_data row "unfavorable" = Ok "Liver cancer"
  /\ forall c, In c ["Renal cancer"] -> In c ["Liver cancer"] -> False.
Proof.
  intros row.
  apply (polarity_summaries_disjoint row ["Renal cancer"] ["Liver cancer"]).
  - unfold row, index. simpl.
    repeat (constructor; [simpl; intuition discriminate|]). constructor.
  - intros n v Hin _ Ht. unfold row in Hin. simpl in Hin.
    repeat (destruct Hin as [Hin|Hin]); try contradiction;
      injection Hin as <- <-; try reflexivity;
      vm_compute in Ht; discriminate.
  - intros n n' c Hn Hn' _ _. unfold row, index in Hn, Hn'. simpl in Hn, Hn'.
    repeat (destruct Hn as [<-|Hn]); try contradiction;
      repeat (destruct Hn' as [<-|Hn']); try contradiction;
      try reflexivity; vm_compute; congruence.
  - reflexivity.
  - reflexivity.
Defined.

(** C6: every cancer type listed in a polarity summary comes from a column
    of the record whose name contains "Pathology prognostics" and whose
    cell, as text, lower-cased and split on whitespace, has the polarity
    word among its tokens. A record whose pathology cells all equal
    "unfavorable" has an empty favorable summary, and one whose pathology
    cells are all missing has empty favorable and unfavorable summaries. *)
Theorem summary_entries_hold_token (row : Series cell) (pt : string) :
  (forall l, cancer_types row pt = Ok l ->
     generate_prognostic_data row pt = Ok (Py.join "," l)
     /\ forall c, In c l ->
          exists n v, In (n, v) row
                      /\ Py.contains "Pathology prognostics" n = true
                      /\ cancer_type n = Ok c
                      /\ In pt (Py.split_ws (Py.lower (py_str v))))
  /\ ((forall n v, In (n, v) row ->
                   Py.contains "Pathology prognostics" n = true ->
                   v = CStr "unfavorable") ->
      generate_prognostic_data row "favorable" = Ok "")
  /\ ((forall n v, In (n, v) row ->
                   Py.contains "Pathology prognostics" n = true ->
                   v = CNaN) ->
      generate_prognostic_data row "favorable" = Ok ""
      /\ generate_prognostic_data row "unfavorable" = Ok "").
Proof.
  split; [|split].
  - intros l Hl. split; [apply generate_prognostic_data_join; eauto|].
    intros c Hc.
    apply (map_result_In cancer_type _ _ c Hl) in Hc as [n [Hn Hnc]].
    apply In_prognostics in Hn as [v [Hin [Hcand Ht]]].
    exists n, v. repeat split; try assumption.
    now apply mem_iff.
  - intros H. apply no_token_empty_summary.
    intros n v Hin Hc. now rewrite (H n v Hin Hc).
  - intros H. split; apply no_token_empty_summary;
      intros n v Hin Hc; now rewrite (H n v Hin Hc).
Qed.

Lemma summary_entries_hold_token_witness :
  let row := [("Pathology prognostics - Liver cancer", CStr "unfavorable")] in
  (generate_prognostic_data row "unfavorable" = Ok "Liver cancer"
   /\ forall c, In c ["Liver cancer"] ->
        exists n v, In (n, v) row
                    /\ Py.contains "Pathology prognostics" n = true
                    /\ cancer_type n = Ok c
                    /\ In "unfavorable" (Py.split_ws (Py.lower (py_str v))))
  /\ generate_prognostic_data row "favorable" = Ok "".
Proof.
  intros row.
  destruct (summary_entries_hold_token row "unfavorable") as [H1 [H2 _]].
  split.
  - apply (H1 ["Liver cancer"]). reflexivity.
  - apply H2. intros n v [Hin|[]] _. now injection Hin as <- <-.
Defined.

(** C10: a column is a pathology-prognostics candidate exactly when its
    name is some text, then "Pathology prognostics", then some text: the
    phrase may stand anywhere in the name and no "-" is asked for. This
    holds for the entries selected at line 35 and at line 36, and for
    every polarity the labels kept at line 37 are those of the candidates
    whose cell holds the polarity token. *)
Theorem candidate_iff_contains_phrase (row : Series cell) (n : string) :
  (In n (index (prognostic_fields row))
   <-> In n (index row)
       /\ exists pre post,
            n = (pre ++ "Pathology prognostics" ++ post)%string)
  /\ (In n (index (prognostics_row row))
      <-> In n (index row)
          /\ exists pre post,
               n = (pre ++ "Pathology prognostics" ++ post)%string)
  /\ (forall pt,
        In n (prognostics row pt)
        <-> exists v, In (n, v) row
                      /\ (exists pre post,
                            n = (pre ++ "Pathology prognostics" ++ post)%string)
                      /\ has_token pt v = true).
Proof.
  split; [|split].
  - rewrite prognostic_fields_filter, !In_index, <- contains_iff. split.
    + intros [v Hv]. apply filter_In in Hv as [Hin Hc]. eauto.
    + intros [[v Hin] Hc]. exists v. apply filter_In. auto.
  - rewrite !In_index, <- contains_iff. split.
    + intros [v Hv]. apply In_prognostics_row in Hv as [Hin Hc]. eauto.
    + intros [[v Hin] Hc]. exists v. apply In_prognostics_row. auto.
  - intros pt. rewrite In_prognostics.
    split; intros [v [Hin [Hc Ht]]]; exists v; repeat split; try assumption;
      now apply contains_iff.
Qed.

Example candidate_phrase_anywhere :
  let row := [("xx Pathology prognostics yy", CStr "favorable zz");
              ("Pathology", CStr "favorable")] in
  index (prognostics_row row) = ["xx Pathology prognostics yy"]
  /\ prognostics row "favorable" = ["xx Pathology prognostics yy"].
Proof. split; reflexivity. Qed.

End PolarityClaims.

(** ** The Class Prioritizer *)

Section Prioritizer.








(** C7: for an input that is empty or made of whitespace only, the result
    is the list holding the empty string alone: with the default priority
    list, and with any priority list naming the empty string at most
    once. *)
Theorem prioritizer_blank_input (pc : string) :
  Py.all_space pc = true ->
  prioritize_protein_class pc None = [""]
  /\ forall pl, count_occ string_dec pl "" <= 1 ->
                prioritize_protein_class pc (Some pl) = [""].
Proof.
  intros Hsp.
  assert (Hcl : class_list pc = [""]).
  { unfold class_list.
    rewrite split_no_sep by (now apply all_space_no_char).
    simpl. now rewrite strip_all_space. }
  unfold prioritize_protein_class. rewrite Hcl. split; [reflexivity|].
  intros pl. induction pl as [|x pl IH]; [reflexivity|].
  cbn [count_occ filter]. destruct (string_dec x "") as [->|Hx].
  - intros Hc.
    assert (E0 : filter (fun x => Py.mem x [""]) pl = []).
    { apply filter_nil_iff. intros y Hy.
      destruct (Py.mem y [""]) eqn:E; [|reflexivity].
      apply mem_iff in E. destruct E as [<-|[]].
      apply (count_occ_In string_dec) in Hy. lia. }
    rewrite E0. reflexivity.
  - intros Hc. replace (Py.mem x [""]) with false; [now apply IH|].
    symmetry. destruct (Py.mem x [""]) eqn:E; [|reflexivity].
    apply mem_iff in E. destruct E as [E|[]]. congruence.
Qed.

Lemma prioritizer_blank_input_witness :
  prioritize_protein_class "   " None = [""]
  /\ prioritize_protein_class "   " (Some ["Enzymes"; ""]) = [""].
Proof.
  destruct (prioritizer_blank_input "   " eq_refl) as [H1 H2].
  split; [exact H1|]. apply H2. simpl. lia.
Defined.

(** A priority list naming the empty string twice gives it twice. *)
Example blank_input_repeated_priority :
  prioritize_protein_class "" (Some [""; ""]) = [""; ""].
Proof. reflexivity. Qed.

End Prioritizer.

(** ** Facts about tables *)

Section TableFacts.

Lemma position_nth (name : string) (cols : list string) (i : nat) :
  position name cols = Some i -> nth_error cols i = Some name.
Proof.
  revert i; induction cols as [|c cols IH]; simpl; intros i; [discriminate|].
  destruct (String.eqb_spec c name) as [->|Hc].
  - intros H; injection H as <-. reflexivity.
  - destruct (position name cols) as [k|]; simpl; [|discriminate].
    intros H; injection H as <-. simpl. now apply IH.
Qed.

Lemma position_lt (name : string) (cols : list string) (i : nat) :
  position name cols = Some i -> i < List.length cols.
Proof.
  intros H. apply position_nth in H. apply nth_error_Some. congruence.
Qed.

Lemma position_In (name : string) (cols : list string) :
  In name cols <-> exists i, position name cols = Some i.
Proof.
  split.
  - induction cols as [|c cols IH]; simpl; [tauto|].
    destruct (String.eqb_spec c name) as [->|Hc]; [eauto|].
    intros [H|H]; [congruence|].
    destruct (IH H) as [i ->]. simpl. eauto.
  - intros [i H]. apply position_nth in H. eapply nth_error_In, H.
Qed.

Lemma position_app_other (name name' : string) (cols : list string) :
  name' <> name -> position name' (cols ++ [name]) = position name' cols.
Proof.
  intros Hne. induction cols as [|c cols IH]; simpl.
  - destruct (String.eqb_spec name name'); [congruence | reflexivity].
  - now rewrite IH.
Qed.

Lemma position_app_new (name : string) (cols : list string) :
  position name cols = None ->
  position name (cols ++ [name]) = Some (List.length cols).
Proof.
  induction cols as [|c cols IH]; simpl.
  - now rewrite String.eqb_refl.
  - destruct (String.eqb c name); [discriminate|].
    destruct (position name cols); simpl; [discriminate|].
    intros _. now rewrite IH.
Qed.

Lemma position_set_name_other (name name' : string) (cols : list string) :
  name' <> name -> position name' (set_name name cols) = position name' cols.
Proof.
  intros Hne. unfold set_name.
  destruct (position name cols); [reflexivity|].
  now apply position_app_other.
Qed.

Lemma In_set_name (name n : string) (cols : list string) :
  In n (set_name name cols) <-> In n cols \/ n = name.
Proof.
  unfold set_name. destruct (position name cols) as [i|] eqn:E.
  - split; [tauto|]. intros [H| ->]; [assumption|].
    apply position_In. eauto.
  - rewrite in_app_iff. simpl. intuition.
Qed.

Context {C : Type}.

Lemma list_set_length (i : nat) (v : C) (r : list C) :
  List.length (list_set i v r) = List.length r.
Proof.
  revert i; induction r as [|x r IH]; intros [|i]; simpl; auto.
Qed.

Lemma list_set_same (i : nat) (v : C) (r : list C) :
  i < List.length r -> nth_error (list_set i v r) i = Some v.
Proof.
  revert i; induction r as [|x r IH]; intros [|i]; simpl; try lia; auto.
  intros H. apply IH. lia.
Qed.

Lemma list_set_other (i j : nat) (v : C) (r : list C) :
  i <> j -> nth_error (list_set i v r) j = nth_error r j.
Proof.
  revert i j; induction r as [|x r IH]; intros [|i] [|j] H; simpl; auto.
  congruence.
Qed.

Lemma set_cell_length (name : string) (cols : list string) (v : C)
  (r : list C) :
  List.length r = List.length cols ->
  List.length (set_cell name cols v r) = List.length (set_name name cols).
Proof.
  intros H. unfold set_cell, set_name. destruct (position name cols).
  - now rewrite list_set_length.
  - rewrite !length_app. simpl. lia.
Qed.

Lemma cell_at_set_same (name : string) (cols : list string) (v : C)
  (r : list C) :
  List.length r = List.length cols ->
  cell_at name (set_name name cols) (set_cell name cols v r) = Some v.
Proof.
  intros H. unfold cell_at, set_cell, set_name.
  destruct (position name cols) as [i|] eqn:E.
  - rewrite E. apply list_set_same. rewrite H. eapply position_lt, E.
  - rewrite (position_app_new _ _ E), <- H, nth_error_app2 by lia.
    now rewrite Nat.sub_diag.
Qed.

Lemma cell_at_set_other (name name' : string) (cols : list string) (v : C)
  (r : list C) :
  name' <> name ->
  List.length r = List.length cols ->
  cell_at name' (set_name name cols) (set_cell name cols v r)
  = cell_at name' cols r.
Proof.
  intros Hne H. unfold cell_at. rewrite (position_set_name_other _ _ _ Hne).
  unfold set_cell.
  destruct (position name' cols) as [j|] eqn:Ej; [|reflexivity].
  destruct (position name cols) as [i|] eqn:Ei.
  - apply list_set_other. intros ->.
    apply position_nth in Ei, Ej. congruence.
  - apply nth_error_app1. rewrite H. eapply position_lt, Ej.
Qed.

Lemma cell_at_map {D : Type} (g : C -> D) (name : string)
  (cols : list string) (r : list C) :
  cell_at name cols (map g r) = option_map g (cell_at name cols r).
Proof.
  unfold cell_at. destruct (position name cols); [|reflexivity].
  apply nth_error_map.
Qed.

Lemma set_column_Forall2 (name : string) (cols : list string)
  (vals : list C) (recs : list (list C)) :
  List.length vals = List.length recs ->
  Forall2 (fun r0 r => exists v, In v vals /\ r = set_cell name cols v r0)
    recs
    (map (fun rv => set_cell name cols (snd rv) (fst rv)) (combine recs vals)).
Proof.
  revert vals; induction recs as [|r0 recs IH]; intros [|v vals] H;
    simpl in *; try discriminate; constructor.
  - exists v. auto.
  - injection H as H. apply IH in H.
    eapply Forall2_impl; [|exact H]. intros a b [w [Hw ->]]. eauto.
Qed.

Lemma Forall2_filter {A B : Type} (R : A -> B -> Prop) (p : A -> bool)
  (q : B -> bool) (l : list A) (l' : list B) :
  (forall a b, R a b -> p a = q b) ->
  Forall2 R l l' -> Forall2 R (filter p l) (filter q l').
Proof.
  intros Hpq H. induction H as [|a b l l' Hab _ IH]; simpl; [constructor|].
  rewrite <- (Hpq a b Hab). destruct (p a); [constructor|]; assumption.
Qed.

Lemma Forall2_compose {A B D : Type} (R1 : A -> B -> Prop)
  (R2 : B -> D -> Prop) (l1 : list A) (l2 : list B) (l3 : list D) :
  Forall2 R1 l1 l2 -> Forall2 R2 l2 l3 ->
  Forall2 (fun a d => exists b, R1 a b /\ R2 b d) l1 l3.
Proof.
  intros H. revert l3. induction H as [|a b l1 l2 Hab _ IH]; intros l3 H2;
    inversion H2; subst; constructor; eauto.
Qed.

Lemma Forall2_with_left {A B : Type} (P : A -> Prop) (R : A -> B -> Prop)
  (l : list A) (l' : list B) :
  Forall P l -> Forall2 R l l' -> Forall2 (fun a b => P a /\ R a b) l l'.
Proof.
  intros HP H. induction H as [|a b l l' Hab _ IH]; [constructor|].
  inversion HP; subst. constructor; auto.
Qed.

Lemma Forall2_map_left {A A' B : Type} (g : A -> A') (R : A' -> B -> Prop)
  (l : list A) (l' : list B) :
  Forall2 R (map g l) l' -> Forall2 (fun a b => R (g a) b) l l'.
Proof.
  revert l'; induction l as [|a l IH]; intros l' H; inversion H; subst;
    constructor; auto.
Qed.

End TableFacts.

(** ** The Dataset Loader *)

Section Loader.

Lemma derived_cells (cols : list string) (r0 : list cell) (f u : cell) :
  List.length r0 = List.length cols ->
  let cols1 := set_name FAV cols in
  let cols2 := set_name UNFAV cols1 in
  let r2 := set_cell UNFAV cols1 u (set_cell FAV cols f r0) in
  List.length r2 = List.length cols2
  /\ cell_at FAV cols2 r2 = Some f
  /\ cell_at UNFAV cols2 r2 = Some u
  /\ forall name, name <> FAV -> name <> UNFAV ->
                  cell_at name cols2 r2 = cell_at name cols r0.
Proof.
  intros H cols1 cols2 r2.
  assert (H1 : List.length (set_cell FAV cols f r0) = List.length cols1)
    by now apply set_cell_length.
  repeat split.
  - now apply set_cell_length.
  - unfold cols2, r2. rewrite cell_at_set_other by (discriminate || assumption).
    now apply cell_at_set_same.
  - now apply cell_at_set_same.
  - intros name Hf Hu. unfold cols2, r2.
    rewrite cell_at_set_other by assumption.
    now apply cell_at_set_other.
Qed.

Lemma present_at_cell (name : string) (cols : list string) (i : nat)
  (r : list cell) :
  position name cols = Some i ->
  present_at i r =
  match cell_at name cols r with
  | Some x => negb (isna x)
  | None => false
  end.
Proof. intros H. unfold present_at, cell_at. now rewrite H. Qed.

Lemma retained_record (cols : list string) (r0 : list cell) (f u : string)
  (p : list string) (i : nat) :
  List.length r0 = List.length cols ->
  position "Uniprot" cols = Some i ->
  present_at i r0 = true ->
  let cols2 := set_name UNFAV (set_name FAV cols) in
  let r2 := set_cell UNFAV (set_name FAV cols) (CStr u)
              (set_cell FAV cols (CStr f) r0) in
  retained cols (set_name PPC cols2) r0
    (set_cell PPC cols2 (ClassList p) (map Scalar r2)).
Proof.
  intros Hlen Hi Hp cols2 r2.
  destruct (derived_cells cols r0 (CStr f) (CStr u) Hlen)
    as [Hlen2 [Hf [Hu Hother]]].
  fold cols2 r2 in Hlen2, Hf, Hu, Hother.
  assert (Hlen2' : List.length (map Scalar r2) = List.length cols2)
    by now rewrite length_map.
  assert (Hget : forall name, name <> PPC ->
            cell_at name (set_name PPC cols2)
              (set_cell PPC cols2 (ClassList p) (map Scalar r2))
            = option_map Scalar (cell_at name cols2 r2)).
  { intros name Hn. rewrite cell_at_set_other by assumption.
    apply cell_at_map. }
  unfold retained. repeat split.
  - rewrite Hget, Hother by discriminate.
    rewrite (present_at_cell "Uniprot" cols i r0 Hi) in Hp.
    destruct (cell_at "Uniprot" cols r0) as [x|]; [|discriminate].
    exists x. split; [reflexivity|]. now destruct (isna x).
  - intros name Hf' Hu' Hp'. rewrite Hget by assumption.
    now rewrite Hother.
  - exists f, u, p. rewrite !Hget, Hf, Hu by discriminate.
    repeat split. now apply cell_at_set_same.
Qed.

Lemma position_derived (name : string) (cols : list string) :
  name <> FAV -> name <> UNFAV ->
  position name (set_name UNFAV (set_name FAV cols)) = position name cols.
Proof.
  intros Hf Hu. now rewrite !position_set_name_other.
Qed.

Lemma prepare_unfold (data : DataFrame cell) (out : DataFrame dcell) :
  prepare data = Ok out ->
  exists fav unfav i j prioritized,
    let cols1 := set_name FAV (columns data) in
    let cols2 := set_name UNFAV cols1 in
    let recs1 := records (set_column FAV (map CStr fav) data) in
    let data1 := mkFrame cols1 recs1 in
    let recs2 := records (set_column UNFAV (map CStr unfav) data1) in
    let recs3 := filter (present_at i) recs2 in
    apply_rows (fun row => generate_prognostic_data row "favorable") data
    = Ok fav
    /\ apply_rows (fun row => generate_prognostic_data row "unfavorable")
         data1 = Ok unfav
    /\ position "Uniprot" cols2 = Some i
    /\ position "Protein class" cols2 = Some j
    /\ map_result prioritize_cell (map (fun r => nth_error r j) recs3)
       = Ok prioritized
    /\ out = set_column PPC (map ClassList prioritized)
               (map_frame Scalar (mkFrame cols2 recs3)).
Proof.
  unfold prepare.
  destruct (apply_rows _ data) as [fav|e] eqn:Efav; [|discriminate].
  cbn [bind].
  destruct (apply_rows _ (set_column FAV (map CStr fav) data))
    as [unfav|e] eqn:Eunfav; [|discriminate].
  cbn [bind]. unfold dropna. cbn [columns set_column].
  destruct (position "Uniprot" _) as [i|] eqn:Ei; [|discriminate].
  cbn [bind]. unfold get_column. cbn [columns records].
  destruct (position "Protein class" _) as [j|] eqn:Ej; [|discriminate].
  cbn [bind].
  destruct (map_result prioritize_cell _) as [prioritized|e] eqn:Epri;
    [|discriminate].
  cbn [bind]. intros H; injection H as <-.
  exists fav, unfav, i, j, prioritized. cbn zeta.
  repeat split; assumption.
Qed.

Lemma Forall2_In_right {A B : Type} (R : A -> B -> Prop) (l : list A)
  (l' : list B) (b : B) :
  Forall2 R l l' -> In b l' -> exists a, In a l /\ R a b.
Proof.
  intros H. induction H as [|a0 b0 l l' Hab _ IH]; simpl; [tauto|].
  intros [<-|Hb]; [eauto|]. destruct (IH Hb) as [a [Ha HR]]. eauto.
Qed.

(** The records after the two summary columns have been assigned. *)
Lemma records_after_summaries (data : DataFrame cell)
  (fav unfav : list string) :
  well_formed data ->
  let cols1 := set_name FAV (columns data) in
  let recs1 := records (set_column FAV (map CStr fav) data) in
  let recs2 :=
    records (set_column UNFAV (map CStr unfav) (mkFrame cols1 recs1)) in
  apply_rows (fun row => generate_prognostic_data row "favorable") data
  = Ok fav ->
  apply_rows (fun row => generate_prognostic_data row "unfavorable")
    (mkFrame cols1 recs1) = Ok unfav ->
  Forall2 (fun r0 r2 =>
             List.length r0 = List.length (columns data)
             /\ exists f u,
                  r2 = set_cell UNFAV cols1 (CStr u)
                         (set_cell FAV (columns data) (CStr f) r0))
    (records data) recs2.
Proof.
  intros [_ Hwf] cols1 recs1 recs2 Hfav Hunfav.
  apply map_result_length in Hfav, Hunfav. cbn [records] in Hunfav.
  assert (F01 := set_column_Forall2 FAV (columns data) (map CStr fav)
                   (records data)).
  rewrite length_map in F01. specialize (F01 Hfav).
  assert (F12 := set_column_Forall2 UNFAV cols1 (map CStr unfav) recs1).
  rewrite length_map in F12. specialize (F12 Hunfav).
  apply (Forall2_with_left _ _ _ _ Hwf) in F01.
  pose proof (Forall2_compose _ _ _ _ _ F01 F12) as F02.
  eapply Forall2_impl; [|exact F02].
  intros r0 r2 [r1 [[Hlen [v [Hv ->]]] [w [Hw ->]]]].
  split; [assumption|].
  apply in_map_iff in Hv as [f [<- _]]. apply in_map_iff in Hw as [u [<- _]].
  eauto.
Qed.

Lemma apply_rows_returns (cols : list string) (recs : list (list cell))
  (pt : string) :
  (forall n, In n cols ->
             Py.contains "Pathology prognostics" n = true ->
             Py.contains "-" n = true) ->
  exists l,
    apply_rows (fun row => generate_prognostic_data row pt)
      (mkFrame cols recs) = Ok l.
Proof.
  intros H. apply map_result_ok_iff, Forall_forall. intros r _.
  apply summarizer_returns. intros n v Hin Hc _.
  apply in_combine_l in Hin. auto.
Qed.

Lemma present_preserved (cols : list string) (i : nat) (r0 : list cell)
  (f u : cell) :
  List.length r0 = List.length cols ->
  position "Uniprot" cols = Some i ->
  present_at i (set_cell UNFAV (set_name FAV cols) u (set_cell FAV cols f r0))
  = present_at i r0.
Proof.
  intros Hlen Hi.
  destruct (derived_cells cols r0 f u Hlen) as [_ [_ [_ Hother]]].
  rewrite (present_at_cell "Uniprot" cols i r0 Hi).
  rewrite (present_at_cell "Uniprot" (set_name UNFAV (set_name FAV cols)) i)
    by (rewrite position_derived by discriminate; assumption).
  now rewrite Hother by discriminate.
Qed.

(** C8: when the loader returns a table, its records are, in order, the
    source records whose "Uniprot" cell is present: each output record has
    a present "Uniprot", keeps the source cells, and carries "Favorable
    prognostics", "Unfavorable prognostics" and "Prioritized Protein
    Class". A missing "Uniprot" raises nothing: the preparation returns
    whenever the table has the columns "Uniprot" and "Protein class", its
    pathology column names have a "-", and the records with a present
    "Uniprot" have a text in "Protein class", whatever the other records
    hold there. *)
Theorem loader_drops_missing_uniprot (data : DataFrame cell) :
  well_formed data ->
  (forall out, prepare data = Ok out ->
     exists i, position "Uniprot" (columns data) = Some i
               /\ Forall2 (retained (columns data) (columns out))
                    (filter (present_at i) (records data)) (records out))
  /\ (In "Protein class" (columns data) ->
      (forall n, In n (columns data) ->
                 Py.contains "Pathology prognostics" n = true ->
                 Py.contains "-" n = true) ->
      forall i, position "Uniprot" (columns data) = Some i ->
      (forall r, In r (records data) -> present_at i r = true ->
                 exists s,
                   cell_at "Protein class" (columns data) r = Some (CStr s)) ->
      exists out, prepare data = Ok out).
Proof.
  intros Hwf. split.
  - intros out Hout.
    apply prepare_unfold in Hout
      as (fav & unfav & i & j & prioritized & Hfav & Hunfav & Hi & Hj & Hpri
          & ->).
    cbn zeta in *.
    pose proof (records_after_summaries data fav unfav Hwf Hfav Hunfav)
      as F02.
    cbn zeta in F02.
    rewrite position_derived in Hi by discriminate.
    exists i. split; [assumption|].
    apply map_result_length in Hpri. rewrite length_map in Hpri.
    set (recs2 := records (set_column UNFAV _ _)) in *.
    set (cols2 := set_name UNFAV _) in *.
    cbn [records columns set_column map_frame].
    assert (F3 := set_column_Forall2 PPC cols2 (map ClassList prioritized)
                    (map (map Scalar) (filter (present_at i) recs2))).
    rewrite !length_map in F3. specialize (F3 Hpri).
    apply Forall2_map_left in F3.
    assert (Ffil : Forall2
              (fun r0 r2 =>
                 List.length r0 = List.length (columns data)
                 /\ exists f u,
                      r2 = set_cell UNFAV (set_name FAV (columns data)) (CStr u)
                             (set_cell FAV (columns data) (CStr f) r0))
              (filter (present_at i) (records data))
              (filter (present_at i) recs2)).
    { apply Forall2_filter; [|exact F02].
      intros r0 r2 [Hlen [f [u ->]]]. symmetry.
      now apply present_preserved. }
    assert (Hpres : Forall (fun r0 => present_at i r0 = true)
                      (filter (present_at i) (records data))).
    { apply Forall_forall. intros r0 Hr0. now apply filter_In in Hr0. }
    apply (Forall2_with_left _ _ _ _ Hpres) in Ffil.
    pose proof (Forall2_compose _ _ _ _ _ Ffil F3) as Fall.
    eapply Forall2_impl; [|exact Fall].
    intros r0 r [r2 [[Hp [Hlen [f [u ->]]]] [v [Hv ->]]]].
    apply in_map_iff in Hv as [p [<- _]].
    now apply retained_record with (i := i).
  - intros Hclass Hdash i Hi Htext. unfold prepare.
    destruct data as [cols recs]. cbn [columns records] in *.
    destruct (apply_rows_returns cols recs "favorable" Hdash) as [fav Hfav].
    rewrite Hfav. cbn [bind].
    set (cols1 := set_name FAV cols).
    set (recs1 := records (set_column FAV (map CStr fav) (mkFrame cols recs))).
    assert (Hdash1 : forall n, In n cols1 ->
              Py.contains "Pathology prognostics" n = true ->
              Py.contains "-" n = true).
    { intros n Hn Hc. apply In_set_name in Hn as [Hn| ->]; [auto|].
      discriminate. }
    destruct (apply_rows_returns cols1 recs1 "unfavorable" Hdash1)
      as [unfav Hunfav].
    change (set_column FAV (map CStr fav) (mkFrame cols recs))
      with (mkFrame cols1 recs1).
    rewrite Hunfav. cbn [bind].
    pose proof (records_after_summaries (mkFrame cols recs) fav unfav Hwf
                  Hfav Hunfav) as F02.
    cbn zeta in F02. cbn [columns records] in F02.
    fold cols1 recs1 in F02.
    unfold dropna. cbn [columns records set_column].
    fold cols1. set (cols2 := set_name UNFAV cols1).
    assert (Hi2 : position "Uniprot" cols2 = Some i).
    { unfold cols2, cols1. now rewrite position_derived by discriminate. }
    rewrite Hi2. cbn [bind]. unfold get_column. cbn [columns records].
    apply position_In in Hclass as [j Hj].
    assert (Hj2 : position "Protein class" cols2 = Some j).
    { unfold cols2, cols1. now rewrite position_derived by discriminate. }
    rewrite Hj2. cbn [bind].
    match goal with
    | |- context [map_result prioritize_cell ?l] =>
        assert (Hok : exists pr, map_result prioritize_cell l = Ok pr)
    end.
    { apply map_result_ok_iff, Forall_forall. intros x Hx.
      apply in_map_iff in Hx as [r2 [<- Hr2]].
      apply filter_In in Hr2 as [Hr2 Hp2].
      destruct (Forall2_In_right _ _ _ _ F02 Hr2)
        as [r0 [Hr0 [Hlen [f [u ->]]]]].
      unfold cols1 in Hp2. rewrite present_preserved in Hp2 by assumption.
      destruct (Htext r0 Hr0 Hp2) as [s Hs].
      destruct (derived_cells cols r0 (CStr f) (CStr u) Hlen)
        as [_ [_ [_ Hother]]].
      specialize (Hother "Protein class"). fold cols1 cols2 in Hother.
      unfold cell_at in Hother at 1. rewrite Hj2 in Hother.
      rewrite Hother, Hs by discriminate. simpl. eauto. }
    destruct Hok as [pr ->]. cbn [bind]. eauto.
Qed.

Lemma sample_table_well_formed : well_formed sample_table.
Proof.
  split; simpl.
  - repeat (constructor; [simpl; intuition discriminate|]). constructor.
  - repeat constructor.
Qed.

Lemma loader_drops_missing_uniprot_witness :
  exists out,
    prepare sample_table = Ok out
    /\ exists i,
         position "Uniprot" (columns sample_table) = Some i
         /\ Forall2 (retained (columns sample_table) (columns out))
              (filter (present_at i) (records sample_table)) (records out).
Proof.
  destruct (loader_drops_missing_uniprot sample_table
              sample_table_well_formed) as [H1 H2].
  assert (Hret : exists out, prepare sample_table = Ok out).
  { apply (H2 (or_intror (or_intror (or_introl eq_refl)))) with (i := 1).
    - intros n Hn Hc. simpl in Hn.
      repeat (destruct Hn as [Hn|Hn]); try contradiction; subst n;
        try reflexivity; vm_compute in Hc; discriminate.
    - reflexivity.
    - intros r Hr Hp. simpl in Hr.
      destruct Hr as [<-|[<-|[<-|[]]]]; try discriminate; vm_compute; eauto. }
  destruct Hret as [out Hout]. exists out. split; [exact Hout|].
  exact (H1 out Hout).
Defined.

Example sample_table_prepared :
  prepare sample_table = Ok sample_prepared.
Proof. reflexivity. Qed.

(** A record with a missing "Uniprot" is dropped after the summaries have
    been computed for it: a column without "-" still fails there. *)
Example missing_uniprot_after_summaries :
  prepare (mkFrame ["Uniprot"; "Protein class"; "Pathology prognostics"]
             [[CNaN; CStr "Enzymes"; CStr "favorable"]])
  = Raise IndexError.
Proof. reflexivity. Qed.

End Loader.

(** ** The cache *)

Section Cache.

Lemma load_data_stores (w w1 : World) (d : DataFrame dcell) :
  load_data w = (Ok d, w1) -> cache w1 = Some d.
Proof.
  unfold load_data, cache_data.
  destruct (cache w) as [d0|] eqn:Ec.
  - intros H; injection H as <- <-. assumption.
  - destruct (load_data_body w) as [[d'|e] w']; intros H.
    + injection H as <- <-. reflexivity.
    + discriminate.
Qed.

(** C9: once a call of the loader has returned a table, a second call
    without invalidation of the cache returns the same table and leaves
    the process as it is, the number of fetches included, whatever the
    remote resource has become in between; the first call fetched at most
    once. *)
Theorem load_data_second_call (w w1 : World) (d : DataFrame dcell) :
  load_data w = (Ok d, w1) ->
  (forall r, load_data (set_remote r w1) = (Ok d, set_remote r w1))
  /\ load_data w1 = (Ok d, w1)
  /\ fetches (snd (load_data w1)) = fetches w1
  /\ fetches w1 <= S (fetches w).
Proof.
  intros H. pose proof (load_data_stores w w1 d H) as Hc.
  assert (Hagain : load_data w1 = (Ok d, w1)).
  { unfold load_data, cache_data. now rewrite Hc. }
  repeat split.
  - intros r. unfold load_data, cache_data. cbn [set_remote cache].
    now rewrite Hc.
  - exact Hagain.
  - now rewrite Hagain.
  - revert H. unfold load_data, cache_data.
    destruct (cache w) as [d0|].
    + intros H; injection H as _ <-. lia.
    + unfold load_data_body, read_csv.
      destruct (data <- remote w ;; prepare data) as [d'|e]; intros H.
      * injection H as _ <-. simpl. lia.
      * discriminate.
Qed.

Lemma load_data_second_call_witness :
  let w := mkWorld (Ok sample_table) 0 None in
  let w1 := mkWorld (Ok sample_table) 1 (Some sample_prepared) in
  load_data w = (Ok sample_prepared, w1)
  /\ load_data (set_remote (Raise FetchError) w1)
     = (Ok sample_prepared, set_remote (Raise FetchError) w1).
Proof.
  intros w w1.
  assert (H : load_data w = (Ok sample_prepared, w1)) by reflexivity.
  split; [exact H|].
  apply (proj1 (load_data_second_call w w1 sample_prepared H)).
Defined.

(** After an invalidation the table is fetched again. *)
Example load_data_after_clear :
  let w := mkWorld (Ok sample_table) 0 None in
  fetches (snd (load_data (clear_cache (snd (load_data w))))) = 2.
Proof. reflexivity. Qed.

(** A call that raised has kept nothing: the next call fetches again. *)
Example load_data_after_failure :
  let w := mkWorld (Raise FetchError) 0 None in
  load_data w = (Raise FetchError, mkWorld (Raise FetchError) 1 None)
  /\ fetches (snd (load_data (snd (load_data w)))) = 2.
Proof. split; reflexivity. Qed.

End Cache.

(** * Further properties of the code *)

(** ** More facts about the string operations *)

Section StripFacts.

Lemma lstrip_idem (s : string) : Py.lstrip (Py.lstrip s) = Py.lstrip s.
Proof.
  induction s as [|c s IH]; simpl; [reflexivity|].
  destruct (Py.isspace c) eqn:Hc; [assumption|]. simpl. now rewrite Hc.
Qed.

Lemma rstrip_cons (c : ascii) (s : string) :
  Py.rstrip (String c s) =
  match Py.rstrip s with
  | EmptyString => if Py.isspace c then EmptyString else String c EmptyString
  | String d r => String c (String d r)
  end.
Proof. reflexivity. Qed.

Lemma rstrip_idem (s : string) : Py.rstrip (Py.rstrip s) = Py.rstrip s.
Proof.
  induction s as [|c s IH]; [reflexivity|].
  rewrite rstrip_cons. destruct (Py.rstrip s) as [|d r] eqn:E.
  - destruct (Py.isspace c) eqn:Hc; simpl; [reflexivity | now rewrite Hc].
  - rewrite rstrip_cons, IH. reflexivity.
Qed.

Lemma rstrip_lstrip (s : string) :
  Py.rstrip (Py.lstrip s) = Py.lstrip (Py.rstrip s).
Proof.
  induction s as [|c s IH]; [reflexivity|].
  cbn [Py.lstrip]. destruct (Py.isspace c) eqn:Hc.
  - rewrite IH, rstrip_cons, Hc.
    destruct (Py.rstrip s) as [|d r]; [reflexivity|].
    cbn [Py.lstrip]. now rewrite Hc.
  - rewrite rstrip_cons, Hc.
    destruct (Py.rstrip s) as [|d r]; cbn [Py.lstrip]; now rewrite Hc.
Qed.

Lemma strip_idem (s : string) : Py.strip (Py.strip s) = Py.strip s.
Proof.
  unfold Py.strip.
  now rewrite rstrip_lstrip, rstrip_idem, lstrip_idem.
Qed.

Lemma lstrip_no_char (c : ascii) (s : string) :
  Py.has_char c s = false -> Py.has_char c (Py.lstrip s) = false.
Proof.
  induction s as [|d s IH]; simpl; [reflexivity|].
  intros H. apply orb_false_iff in H as [Hd Hs].
  destruct (Py.isspace d); [auto|]. simpl. now rewrite Hd, Hs.
Qed.

Lemma rstrip_no_char (c : ascii) (s : string) :
  Py.has_char c s = false -> Py.has_char c (Py.rstrip s) = false.
Proof.
  induction s as [|d s IH]; simpl; [reflexivity|].
  intros H. apply orb_false_iff in H as [Hd Hs]. specialize (IH Hs).
  destruct (Py.rstrip s) as [|e r].
  - destruct (Py.isspace d); simpl; [reflexivity | now rewrite Hd].
  - cbn [Py.has_char] in *. now rewrite Hd.
Qed.

Lemma strip_no_char (c : ascii) (s : string) :
  Py.has_char c s = false -> Py.has_char c (Py.strip s) = false.
Proof.
  intros H. unfold Py.strip. now apply lstrip_no_char, rstrip_no_char.
Qed.

Lemma split_app_sep (sep : ascii) (x rest : string) :
  Py.has_char sep x = false ->
  Py.split sep (x ++ String sep rest)%string = x :: Py.split sep rest.
Proof.
  induction x as [|c x IH]; simpl.
  - intros _. now rewrite Ascii.eqb_refl.
  - intros H. apply orb_false_iff in H as [Hc Hx].
    now rewrite Hc, (IH Hx).
Qed.

(** Splitting what was joined gives the pieces back, when there is a piece
    and no piece holds the separator. *)
Lemma split_join (sep : ascii) (l : list string) :
  l <> [] ->
  Forall (fun x => Py.has_char sep x = false) l ->
  Py.split sep (Py.join (String sep EmptyString) l) = l.
Proof.
  induction l as [|x l IH]; [congruence|]. intros _ H.
  inversion H as [|? ? Hx Hl]; subst.
  destruct l as [|y l].
  - simpl. now apply split_no_sep.
  - change (Py.join (String sep EmptyString) (x :: y :: l))
      with (x ++ String sep (Py.join (String sep EmptyString) (y :: l)))%string.
    rewrite split_app_sep by assumption.
    f_equal. apply IH; [discriminate | assumption].
Qed.

End StripFacts.

(** ** More on the Class Prioritizer *)

Section PrioritizerMore.

Lemma class_list_trimmed (pc : string) :
  Forall (fun x => Py.strip x = x /\ Py.has_char "," x = false)
    (class_list pc).
Proof.
  unfold class_list. apply Forall_forall. intros x Hx.
  apply in_map_iff in Hx as [piece [<- Hp]].
  split; [apply strip_idem|]. apply strip_no_char.
  pose proof (split_pieces "," pc) as H. rewrite Forall_forall in H. auto.
Qed.

Lemma class_list_not_nil (pc : string) : class_list pc <> [].
Proof.
  unfold class_list. pose proof (split_not_nil "," pc) as H.
  destruct (Py.split "," pc); [congruence | discriminate].
Qed.

Lemma prioritize_incl (pc : string) (pl : option (list string)) (x : string) :
  In x (prioritize_protein_class pc pl) -> In x (class_list pc).
Proof.
  unfold prioritize_protein_class.
  destruct (filter _ _) as [|y l] eqn:E; [auto|].
  rewrite <- E. intros H. apply filter_In in H as [_ H]. now apply mem_iff.
Qed.

Lemma prioritize_not_nil (pc : string) (pl : option (list string)) :
  prioritize_protein_class pc pl <> [].
Proof.
  unfold prioritize_protein_class.
  destruct (filter _ _) as [|y l]; [apply class_list_not_nil | discriminate].
Qed.

(** X1: whatever the priority list, the prioritizer never returns the
    empty list, and every label it returns is one of the input's trimmed
    labels: it has no surrounding whitespace and no comma. *)
Theorem prioritizer_result_labels (pc : string)
  (pl : option (list string)) :
  prioritize_protein_class pc pl <> []
  /\ Forall (fun x => (exists piece, In piece (Py.split "," pc)
                                     /\ x = Py.strip piece)
                      /\ Py.strip x = x
                      /\ Py.has_char "," x = false)
       (prioritize_protein_class pc pl).
Proof.
  split; [apply prioritize_not_nil|].
  apply Forall_forall. intros x Hx. apply prioritize_incl in Hx.
  pose proof (class_list_trimmed pc) as H. rewrite Forall_forall in H.
  split; [|now apply H].
  unfold class_list in Hx. apply in_map_iff in Hx as [piece [<- Hp]]. eauto.
Qed.




Lemma map_id_on {A : Type} (g : A -> A) (l : list A) :
  Forall (fun x => g x = x) l -> map g l = l.
Proof.
  induction 1 as [|x l Hx _ IH]; simpl; [reflexivity | now rewrite Hx, IH].
Qed.

Lemma class_list_join (l : list string) :
  l <> [] ->
  Forall (fun x => Py.strip x = x /\ Py.has_char "," x = false) l ->
  class_list (Py.join "," l) = l.
Proof.
  intros Hn H. unfold class_list. rewrite split_join; [|assumption|].
  - apply map_id_on. eapply Forall_impl; [|exact H]. now intros x [Hx _].
  - eapply Forall_impl; [|exact H]. now intros x [_ Hx].
Qed.

(** X3: the result is a fixed point: joined by commas and prioritized
    again with the same priority list, it comes back unchanged. *)
Theorem prioritizer_idempotent (pc : string) (pl : option (list string)) :
  prioritize_protein_class
    (Py.join "," (prioritize_protein_class pc pl)) pl
  = prioritize_protein_class pc pl.
Proof.
  assert (Hcl : class_list (Py.join "," (prioritize_protein_class pc pl))
                = prioritize_protein_class pc pl).
  { apply class_list_join; [apply prioritize_not_nil|].
    pose proof (class_list_trimmed pc) as H. rewrite Forall_forall in H.
    apply Forall_forall. intros x Hx. now apply H, prioritize_incl with pl. }
  unfold prioritize_protein_class at 1. rewrite Hcl. clear Hcl.
  set (PL := match pl with
             | None => protein_class_priority
             | Some l => l
             end).
  set (g := fun x => Py.mem x (class_list pc)).
  assert (Hr : prioritize_protein_class pc pl =
               match filter g PL with
               | [] => class_list pc
               | _ :: _ => filter g PL
               end) by reflexivity.
  destruct (filter g PL) as [|y r] eqn:E; rewrite Hr.
  - change (fun x => Py.mem x (class_list pc)) with g. now rewrite E.
  - assert (E2 : filter (fun x => Py.mem x (y :: r)) PL = y :: r).
    { transitivity (filter g PL); [|exact E].
      apply filter_ext_in. intros x Hx.
      apply eq_true_iff_eq. rewrite mem_iff, <- E, filter_In. tauto. }
    now rewrite E2.
Qed.

End PrioritizerMore.

(** ** More on the Prognostic Summarizer *)

Section SummarizerMore.

Lemma flat_map_ext_In {A B : Type} (f g : A -> list B) (l : list A) :
  (forall a, In a l -> f a = g a) -> flat_map f l = flat_map g l.
Proof.
  induction l as [|a l IH]; simpl; intros H; [reflexivity|].
  rewrite (H a) by now left. f_equal. apply IH. intros b Hb. apply H. now right.
Qed.

Lemma filter_filter {A : Type} (p q : A -> bool) (l : list A) :
  filter p (filter q l) = filter (fun x => q x && p x) l.
Proof.
  induction l as [|a l IH]; simpl; [reflexivity|].
  destruct (q a); simpl; [destruct (p a)|]; now rewrite IH.
Qed.

(** Line 36 reads the candidate entries only. *)
Lemma prognostics_row_candidates (row : Series cell) :
  prognostics_row row =
  getitem_labels (filter is_candidate row) (index (filter is_candidate row)).
Proof.
  unfold prognostics_row. rewrite prognostic_fields_filter.
  unfold getitem_labels. apply flat_map_ext_In. intros l Hl.
  apply In_index in Hl as [v Hv]. apply filter_In in Hv as [_ Hc].
  rewrite filter_filter. apply filter_ext. intros [n w]. simpl.
  destruct (String.eqb_spec n l) as [->|_].
  - unfold is_candidate in *. simpl in *. now rewrite Hc.
  - now rewrite andb_false_r.
Qed.

Lemma summarizer_candidates_only (row row' : Series cell) (pt : string) :
  filter is_candidate row = filter is_candidate row' ->
  generate_prognostic_data row pt = generate_prognostic_data row' pt.
Proof.
  intros H. unfold generate_prognostic_data, cancer_types.
  now rewrite !prognostics_filter, !prognostics_row_candidates, H.
Qed.

(** X4: a column whose name does not contain "Pathology prognostics" has
    no influence on the summary, whatever its cell holds and wherever it
    stands in the row: with or without it the summarizer gives the same
    result, be it a summary or an exception. *)
Theorem summarizer_ignores_other_columns (row1 row2 : Series cell)
  (n : string) (v : cell) (pt : string) :
  Py.contains "Pathology prognostics" n = false ->
  generate_prognostic_data (row1 ++ (n, v) :: row2) pt
  = generate_prognostic_data (row1 ++ row2) pt.
Proof.
  intros H. apply summarizer_candidates_only.
  rewrite !filter_app. simpl. unfold is_candidate at 2. simpl.
  now rewrite H.
Qed.

Lemma summarizer_ignores_other_columns_witness :
  generate_prognostic_data
    ([("Pathology prognostics - Liver cancer", CStr "favorable")]
     ++ ("Gene", CStr "favorable")
        :: [("Pathology prognostics - Renal cancer", CStr "favorable")])
    "favorable"
  = generate_prognostic_data
      ([("Pathology prognostics - Liver cancer", CStr "favorable")]
       ++ [("Pathology prognostics - Renal cancer", CStr "favorable")])
      "favorable".
Proof.
  apply summarizer_ignores_other_columns. reflexivity.
Defined.

(** X5: for a row with distinct column names, the summary lists the
    cancer types in the order of the columns, one for each column whose
    name contains "Pathology prognostics" and whose cell holds the
    polarity token. *)
Theorem summary_follows_column_order (row : Series cell) (pt : string)
  (l : list string) :
  NoDup (index row) ->
  cancer_types row pt = Ok l ->
  generate_prognostic_data row pt = Ok (Py.join "," l)
  /\ Forall2 (fun kv c => cancer_type (fst kv) = Ok c)
       (filter (fun kv => is_candidate kv && has_token pt (snd kv)) row) l.
Proof.
  intros Hnd Hl. split; [apply generate_prognostic_data_join; eauto|].
  unfold cancer_types in Hl.
  destruct (prognostics_unique_labels row pt Hnd) as [_ E].
  rewrite E, filter_filter in Hl. apply map_result_Forall2 in Hl.
  now apply Forall2_map_left in Hl.
Qed.

Lemma summary_follows_column_order_witness :
  let row := [("Pathology prognostics - Renal cancer", CStr "favorable");
              ("Gene", CStr "favorable");
              ("Pathology prognostics - Liver cancer", CStr "unfavorable");
              ("Pathology prognostics - Breast cancer", CStr "Favorable")] in
  generate_prognostic_data row "favorable" = Ok "Renal cancer,Breast cancer"
  /\ Forall2 (fun kv c => cancer_type (fst kv) = Ok c)
       (filter (fun kv => is_candidate kv && has_token "favorable" (snd kv))
          row)
       ["Renal cancer"; "Breast cancer"].
Proof.
  intros row.
  apply (summary_follows_column_order row "favorable"
           ["Renal cancer"; "Breast cancer"]).
  - unfold row, index. simpl.
    repeat (constructor; [simpl; intuition discriminate|]). constructor.
  - reflexivity.
Defined.

Lemma lower_char_idem (c : ascii) :
  Py.lower_char (Py.lower_char c) = Py.lower_char c.
Proof.
  destruct c as [[] [] [] [] [] [] [] []]; reflexivity.
Qed.

Lemma lower_idem (s : string) : Py.lower (Py.lower s) = Py.lower s.
Proof.
  induction s as [|c s IH]; simpl; [reflexivity|].
  now rewrite lower_char_idem, IH.
Qed.

Lemma split_ws_lowered (s : string) :
  Py.lower s = s -> Forall (fun w => Py.lower w = w) (Py.split_ws s).
Proof.
  induction s as [|c s IH]; [constructor|].
  intros H. cbn [Py.lower] in H. injection H as Hc Hs. specialize (IH Hs).
  assert (H1 : Py.lower (String c EmptyString) = String c EmptyString)
    by (simpl; now rewrite Hc).
  cbn [Py.split_ws]. destruct (Py.isspace c); [assumption|].
  destruct s as [|c' s']; [now repeat constructor|].
  destruct (Py.isspace c'); [now constructor|].
  destruct (Py.split_ws (String c' s')) as [|w ws]; [now repeat constructor|].
  inversion IH as [|? ? Hw Hws]; subst. constructor; [|assumption].
  simpl. now rewrite Hc, Hw.
Qed.

(** X6: the token test lower-cases the cell, not the polarity word: for a
    polarity word with an upper-case letter no cell matches, and the
    summary is empty for every row, without error. *)
Theorem uppercase_polarity_matches_nothing (row : Series cell)
  (pt : string) :
  Py.lower pt <> pt ->
  prognostics row pt = [] /\ generate_prognostic_data row pt = Ok "".
Proof.
  intros H.
  assert (Hno : forall v, has_token pt v = false).
  { intros v. destruct (has_token pt v) eqn:E; [|reflexivity].
    exfalso. apply H. unfold has_token in E. apply mem_iff in E.
    pose proof (split_ws_lowered _ (lower_idem (py_str v))) as Hl.
    rewrite Forall_forall in Hl. auto. }
  split; [|apply no_token_empty_summary; auto].
  destruct (prognostics row pt) as [|n l] eqn:E; [reflexivity|].
  assert (Hin : In n (prognostics row pt)) by (rewrite E; now left).
  apply In_prognostics in Hin as [v [_ [_ Ht]]]. now rewrite Hno in Ht.
Qed.

Lemma uppercase_polarity_matches_nothing_witness :
  let row := [("Pathology prognostics - Liver cancer", CStr "Favorable")] in
  prognostics row "Favorable" = []
  /\ generate_prognostic_data row "Favorable" = Ok "".
Proof.
  intros row. apply uppercase_polarity_matches_nothing. discriminate.
Defined.

End SummarizerMore.

(** ** More on the Dataset Loader *)

Section LoaderMore.

Lemma set_column_values {A B D : Type} (R : A -> B -> Prop)
  (h : A -> list D) (g : B -> D) (name : string) (cols : list string)
  (recs : list A) (vals : list B) :
  Forall2 R recs vals ->
  Forall2 (fun a r => exists y, R a y /\ r = set_cell name cols (g y) (h a))
    recs
    (map (fun rv => set_cell name cols (snd rv) (fst rv))
       (combine (map h recs) (map g vals))).
Proof.
  induction 1 as [|a y recs vals Hay _ IH]; simpl; constructor; eauto.
Qed.

Lemma apply_set_column {B : Type} (f : Series cell -> result B)
  (g : B -> cell) (name : string) (data : DataFrame cell) (vals : list B) :
  apply_rows f data = Ok vals ->
  Forall2 (fun r0 r =>
             exists y, f (row_series (columns data) r0) = Ok y
                       /\ r = set_cell name (columns data) (g y) r0)
    (records data) (records (set_column name (map g vals) data)).
Proof.
  intros H. apply map_result_Forall2 in H.
  pose proof (set_column_values _ (fun r : list cell => r) g name
                (columns data) _ _ H) as F.
  rewrite map_id in F. exact F.
Qed.

Lemma combine_snoc {A B : Type} (l : list A) (l' : list B) (a : A) (b : B) :
  List.length l' = List.length l ->
  combine (l ++ [a]) (l' ++ [b]) = combine l l' ++ [(a, b)].
Proof.
  revert l'; induction l as [|x l IH]; intros [|y l'] H; simpl in *;
    try discriminate; [reflexivity|].
  f_equal. apply IH. now injection H.
Qed.

Lemma candidates_list_set (name : string) (cols : list string) (i : nat)
  (v : cell) (r : list cell) :
  Py.contains "Pathology prognostics" name = false ->
  position name cols = Some i ->
  filter is_candidate (combine cols (list_set i v r))
  = filter is_candidate (combine cols r).
Proof.
  intros Hname. revert i r. induction cols as [|c cols IH]; intros i r;
    simpl; [discriminate|].
  destruct (String.eqb_spec c name) as [->|Hc].
  - intros H; injection H as <-. destruct r as [|x r]; [reflexivity|].
    simpl. unfold is_candidate. simpl. now rewrite Hname.
  - destruct (position name cols) as [k|] eqn:Ek; simpl; [|discriminate].
    intros H; injection H as <-. destruct r as [|x r]; [reflexivity|].
    simpl. now rewrite (IH k r eq_refl).
Qed.

(** Assigning a column whose name does not contain "Pathology prognostics"
    leaves the candidate entries of a record as they are. *)
Lemma candidates_after_set (name : string) (cols : list string) (v : cell)
  (r : list cell) :
  Py.contains "Pathology prognostics" name = false ->
  List.length r = List.length cols ->
  filter is_candidate (row_series (set_name name cols) (set_cell name cols v r))
  = filter is_candidate (row_series cols r).
Proof.
  intros Hname Hlen. unfold row_series, set_name, set_cell.
  destruct (position name cols) as [i|] eqn:E.
  - now apply candidates_list_set with name.
  - rewrite combine_snoc, filter_app by assumption. simpl.
    unfold is_candidate at 2. simpl. rewrite Hname. apply app_nil_r.
Qed.

Lemma prioritize_cell_ok (x : option cell) (p : list string) :
  prioritize_cell x = Ok p ->
  exists s, x = Some (CStr s) /\ p = prioritize_protein_class s None.
Proof.
  destruct x as [[s| |t]|]; simpl; try discriminate.
  intros H; injection H as <-. eauto.
Qed.

(** X7: in the table the loader returns, record by record in the order of
    the source records with a present "Uniprot": "Favorable prognostics"
    and "Unfavorable prognostics" hold the two summaries of the source
    record (the column added first does not enter the second summary), and
    "Prioritized Protein Class" holds the prioritized labels of the
    record's "Protein class" text under the default priority list. *)
Theorem loader_derived_values (data : DataFrame cell)
  (out : DataFrame dcell) :
  well_formed data ->
  prepare data = Ok out ->
  exists i,
    position "Uniprot" (columns data) = Some i
    /\ Forall2
         (fun r0 r =>
            (exists f,
                generate_prognostic_data (row_series (columns data) r0)
                  "favorable" = Ok f
                /\ cell_at FAV (columns out) r = Some (Scalar (CStr f)))
            /\ (exists u,
                   generate_prognostic_data (row_series (columns data) r0)
                     "unfavorable" = Ok u
                   /\ cell_at UNFAV (columns out) r = Some (Scalar (CStr u)))
            /\ (exists s,
                   cell_at "Protein class" (columns data) r0 = Some (CStr s)
                   /\ cell_at PPC (columns out) r
                      = Some (ClassList (prioritize_protein_class s None))))
         (filter (present_at i) (records data)) (records out).
Proof.
  intros Hwf Hout.
  apply prepare_unfold in Hout
    as (fav & unfav & i & j & prioritized & Hfav & Hunfav & Hi & Hj & Hpri
        & ->).
  cbn zeta in *.
  pose proof (apply_set_column _ CStr FAV data fav Hfav) as F01.
  pose proof (apply_set_column _ CStr UNFAV _ unfav Hunfav) as F12.
  cbn [columns records] in F12.
  destruct Hwf as [_ Hlen].
  apply (Forall2_with_left _ _ _ _ Hlen) in F01.
  pose proof (Forall2_compose _ _ _ _ _ F01 F12) as F02. clear F01 F12.
  pose proof Hi as Hi0. rewrite position_derived in Hi0 by discriminate.
  exists i. split; [assumption|].
  set (cols := columns data) in *.
  set (cols2 := set_name UNFAV (set_name FAV cols)) in *.
  set (recs2 := records (set_column UNFAV _ _)) in *.
  apply map_result_Forall2, Forall2_map_left in Hpri.
  pose proof (set_column_values _ (map Scalar) ClassList PPC cols2 _ _ Hpri)
    as F3.
  assert (Ffil : Forall2
            (fun r0 r2 =>
               List.length r0 = List.length cols
               /\ exists f u,
                    generate_prognostic_data (row_series cols r0) "favorable"
                    = Ok f
                    /\ generate_prognostic_data (row_series cols r0)
                         "unfavorable" = Ok u
                    /\ r2 = set_cell UNFAV (set_name FAV cols) (CStr u)
                              (set_cell FAV cols (CStr f) r0))
            (filter (present_at i) (records data))
            (filter (present_at i) recs2)).
  { apply Forall2_filter with (R := fun r0 r2 => _ /\ _).
    - intros r0 r2 [Hl [f [u [_ [_ ->]]]]]. symmetry.
      now apply present_preserved.
    - eapply Forall2_impl; [|exact F02].
      intros r0 r2 [r1 [[Hl [f [Hf ->]]] [u [Hu ->]]]].
      split; [assumption|]. exists f, u. repeat split; [assumption|].
      rewrite <- Hu. apply summarizer_candidates_only. symmetry.
      now apply candidates_after_set. }
  pose proof (Forall2_compose _ _ _ _ _ Ffil F3) as Fall.
  cbn [records columns set_column map_frame].
  eapply Forall2_impl; [|exact Fall].
  intros r0 r [r2 [[Hl [f [u [Hf [Hu ->]]]]] [p [Hp ->]]]].
  destruct (derived_cells cols r0 (CStr f) (CStr u) Hl)
    as [Hlen2 [Hcf [Hcu Hother]]].
  fold cols2 in Hlen2, Hcf, Hcu, Hother.
  set (r2 := set_cell UNFAV (set_name FAV cols) (CStr u)
               (set_cell FAV cols (CStr f) r0)) in *.
  assert (Hlen2' : List.length (map Scalar r2) = List.length cols2)
    by now rewrite length_map.
  assert (Hget : forall name, name <> PPC ->
            cell_at name (set_name PPC cols2)
              (set_cell PPC cols2 (ClassList p) (map Scalar r2))
            = option_map Scalar (cell_at name cols2 r2)).
  { intros name Hn. rewrite cell_at_set_other by assumption.
    apply cell_at_map. }
  split; [|split].
  - exists f. split; [assumption|]. now rewrite Hget, Hcf by discriminate.
  - exists u. split; [assumption|]. now rewrite Hget, Hcu by discriminate.
  - apply prioritize_cell_ok in Hp as [s [Hs ->]]. exists s. split.
    + rewrite <- Hother by discriminate. unfold cell_at. now rewrite Hj.
    + now apply cell_at_set_same.
Qed.

Lemma loader_derived_values_witness :
  exists i,
    position "Uniprot" (columns sample_table) = Some i
    /\ Forall2
         (fun r0 r =>
            (exists f,
                generate_prognostic_data
                  (row_series (columns sample_table) r0) "favorable" = Ok f
                /\ cell_at FAV (columns sample_prepared) r
                   = Some (Scalar (CStr f)))
            /\ (exists u,
                   generate_prognostic_data
                     (row_series (columns sample_table) r0) "unfavorable"
                   = Ok u
                   /\ cell_at UNFAV (columns sample_prepared) r
                      = Some (Scalar (CStr u)))
            /\ (exists s,
                   cell_at "Protein class" (columns sample_table) r0
                   = Some (CStr s)
                   /\ cell_at PPC (columns sample_prepared) r
                      = Some (ClassList (prioritize_protein_class s None))))
         (filter (present_at i) (records sample_table))
         (records sample_prepared).
Proof.
  apply loader_derived_values.
  - exact sample_table_well_formed.
  - reflexivity.
Defined.

Lemma NoDup_snoc {A : Type} (l : list A) (a : A) :
  NoDup l -> ~ In a l -> NoDup (l ++ [a]).
Proof.
  induction 1 as [|x l Hx Hl IH]; simpl; intros Ha.
  - constructor; [tauto | constructor].
  - constructor.
    + rewrite in_app_iff. simpl. intuition.
    + apply IH. tauto.
Qed.

Lemma NoDup_set_name (name : string) (cols : list string) :
  NoDup cols -> NoDup (set_name name cols).
Proof.
  intros H. unfold set_name. destruct (position name cols) eqn:E; [assumption|].
  apply NoDup_snoc; [assumption|]. intros Hin.
  apply position_In in Hin as [i Hi]. congruence.
Qed.

Lemma set_name_fresh (name : string) (cols : list string) :
  ~ In name cols -> set_name name cols = cols ++ [name].
Proof.
  intros H. unfold set_name. destruct (position name cols) eqn:E; [|reflexivity].
  exfalso. apply H, position_In. eauto.
Qed.

Lemma position_set_name_keep (name n : string) (cols : list string)
  (i : nat) :
  position n cols = Some i -> position n (set_name name cols) = Some i.
Proof.
  intros H. unfold set_name. destruct (position name cols); [assumption|].
  revert i H. induction cols as [|c cols IH]; simpl; intros i; [discriminate|].
  destruct (String.eqb c n); [auto|].
  destruct (position n cols) as [k|]; simpl; [|discriminate].
  intros H; injection H as <-. now rewrite (IH k eq_refl).
Qed.

(** X8: the table the loader returns is again a table: its column names
    are distinct and every record has one cell per column. The source
    columns keep their places; a derived column takes the place of a
    source column of the same name, and is added at the end otherwise, so
    that a source without such columns gets "Favorable prognostics",
    "Unfavorable prognostics" and "Prioritized Protein Class" as its last
    three columns, in this order. *)
Theorem loader_output_shape (data : DataFrame cell) (out : DataFrame dcell) :
  well_formed data ->
  prepare data = Ok out ->
  well_formed out
  /\ columns out = set_name PPC (set_name UNFAV (set_name FAV (columns data)))
  /\ (forall n i, position n (columns data) = Some i ->
                  position n (columns out) = Some i)
  /\ (~ In FAV (columns data) -> ~ In UNFAV (columns data) ->
      ~ In PPC (columns data) ->
      columns out = columns data ++ [FAV; UNFAV; PPC]).
Proof.
  intros Hwf Hout.
  apply prepare_unfold in Hout
    as (fav & unfav & i & j & prioritized & Hfav & Hunfav & Hi & Hj & Hpri
        & ->).
  cbn zeta in *.
  pose proof (records_after_summaries data fav unfav Hwf Hfav Hunfav) as F02.
  cbn zeta in F02. destruct Hwf as [Hnd Hlen].
  set (cols := columns data) in *.
  set (cols2 := set_name UNFAV (set_name FAV cols)) in *.
  set (recs2 := records (set_column UNFAV _ _)) in *.
  cbn [columns records set_column map_frame].
  split; [split|split; [reflexivity|split]].
  - cbn [columns]. now repeat apply NoDup_set_name.
  - cbn [columns records]. apply Forall_forall. intros r Hr.
    apply map_result_length in Hpri. rewrite length_map in Hpri.
    assert (F3 := set_column_Forall2 PPC cols2 (map ClassList prioritized)
                    (map (map Scalar) (filter (present_at i) recs2))).
    rewrite !length_map in F3. specialize (F3 Hpri).
    destruct (Forall2_In_right _ _ _ _ F3 Hr) as [r2' [Hr2' [v [_ ->]]]].
    apply in_map_iff in Hr2' as [r2 [<- Hr2]].
    apply filter_In in Hr2 as [Hr2 _].
    destruct (Forall2_In_right _ _ _ _ F02 Hr2) as [r0 [_ [Hl [f [u ->]]]]].
    apply set_cell_length. rewrite length_map.
    now destruct (derived_cells cols r0 (CStr f) (CStr u) Hl) as [H _].
  - intros n k Hn. unfold cols2. now repeat apply position_set_name_keep.
  - intros Hf Hu Hp. unfold cols2.
    rewrite (set_name_fresh FAV cols Hf).
    rewrite (set_name_fresh UNFAV).
    + rewrite set_name_fresh; [now rewrite <- !app_assoc|].
      rewrite !in_app_iff. simpl. intuition discriminate.
    + rewrite in_app_iff. simpl. intuition discriminate.
Qed.

Lemma loader_output_shape_witness :
  well_formed sample_prepared
  /\ columns sample_prepared = columns sample_table ++ [FAV; UNFAV; PPC].
Proof.
  destruct (loader_output_shape sample_table sample_prepared
              sample_table_well_formed eq_refl) as [H1 [_ [_ H4]]].
  split; [exact H1|].
  apply H4; simpl; intuition discriminate.
Defined.

Lemma summarizer_raise (row : Series cell) (pt : string) (e : exn) :
  generate_prognostic_data row pt = Raise e -> e = IndexError.
Proof.
  unfold generate_prognostic_data, cancer_types.
  destruct (map_result cancer_type _) as [l|e'] eqn:E; simpl; [discriminate|].
  intros H; injection H as ->.
  apply map_result_raise in E as [n [_ Hn]]. eapply cancer_type_raise, Hn.
Qed.

Lemma apply_rows_raise (data : DataFrame cell) (pt : string) (e : exn) :
  apply_rows (fun row => generate_prognostic_data row pt) data = Raise e ->
  e = IndexError.
Proof.
  intros H. apply map_result_raise in H as [r [_ Hr]].
  eapply summarizer_raise, Hr.
Qed.

Lemma prioritize_cell_raise (x : option cell) (e : exn) :
  prioritize_cell x = Raise e -> e = AttributeError.
Proof.
  destruct x as [[s| |t]|]; simpl; congruence.
Qed.

(** X9: the preparation raises nothing but [IndexError] (a pathology
    column without "-"), [KeyError] for "Uniprot" or for "Protein class"
    (the column is missing) and [AttributeError] (a "Protein class" cell
    that is not a text). When every pathology column name has a "-", a
    table without "Uniprot" raises the first [KeyError], and a table with
    "Uniprot" and without "Protein class" the second. *)
Theorem loader_exceptions (data : DataFrame cell) :
  (forall e, prepare data = Raise e ->
             e = IndexError \/ e = KeyError "Uniprot"
             \/ e = KeyError "Protein class" \/ e = AttributeError)
  /\ ((forall n, In n (columns data) ->
                 Py.contains "Pathology prognostics" n = true ->
                 Py.contains "-" n = true) ->
      (~ In "Uniprot" (columns data) ->
       prepare data = Raise (KeyError "Uniprot"))
      /\ (In "Uniprot" (columns data) ->
          ~ In "Protein class" (columns data) ->
          prepare data = Raise (KeyError "Protein class"))).
Proof.
  split.
  - intros e. unfold prepare.
    destruct (apply_rows _ data) as [fav|e1] eqn:Efav; cbn [bind].
    2:{ intros H; injection H as <-. left. eapply apply_rows_raise, Efav. }
    destruct (apply_rows _ (set_column FAV _ data)) as [unfav|e2] eqn:Eunfav;
      cbn [bind].
    2:{ intros H; injection H as <-. left. eapply apply_rows_raise, Eunfav. }
    unfold dropna. destruct (position "Uniprot" _); cbn [bind].
    2:{ intros H; injection H as <-. auto. }
    unfold get_column. destruct (position "Protein class" _); cbn [bind].
    2:{ intros H; injection H as <-. auto. }
    destruct (map_result prioritize_cell _) as [pr|e3] eqn:Epr; cbn [bind];
      [discriminate|].
    intros H; injection H as <-. do 3 right.
    apply map_result_raise in Epr as [x [_ Hx]].
    eapply prioritize_cell_raise, Hx.
  - intros Hdash. destruct data as [cols recs]. cbn [columns] in *.
    unfold prepare.
    destruct (apply_rows_returns cols recs "favorable" Hdash) as [fav Hfav].
    rewrite Hfav. cbn [bind].
    set (cols1 := set_name FAV cols).
    set (recs1 := records (set_column FAV (map CStr fav) (mkFrame cols recs))).
    assert (Hdash1 : forall n, In n cols1 ->
              Py.contains "Pathology prognostics" n = true ->
              Py.contains "-" n = true).
    { intros n Hn Hc. apply In_set_name in Hn as [Hn| ->]; [auto|].
      discriminate. }
    destruct (apply_rows_returns cols1 recs1 "unfavorable" Hdash1)
      as [unfav Hunfav].
    change (set_column FAV (map CStr fav) (mkFrame cols recs))
      with (mkFrame cols1 recs1).
    rewrite Hunfav. cbn [bind].
    unfold dropna, get_column. cbn [columns records set_column].
    unfold cols1. rewrite !position_derived by discriminate.
    split.
    + intros Hu. destruct (position "Uniprot" cols) as [i|] eqn:E.
      * exfalso. apply Hu, position_In. eauto.
      * reflexivity.
    + intros Hu Hp. apply position_In in Hu as [i ->]. cbn [bind columns].
      unfold cols1. rewrite position_derived by discriminate.
      destruct (position "Protein class" cols) as [j|] eqn:E.
      * exfalso. apply Hp, position_In. eauto.
      * reflexivity.
Qed.

Lemma loader_exceptions_witness :
  prepare (mkFrame ["Gene"; "Protein class"] [[CStr "A"; CStr "Enzymes"]])
  = Raise (KeyError "Uniprot")
  /\ prepare (mkFrame ["Gene"; "Uniprot"] [[CStr "A"; CStr "P1"]])
     = Raise (KeyError "Protein class").
Proof.
  split.
  - apply (loader_exceptions
             (mkFrame ["Gene"; "Protein class"] [[CStr "A"; CStr "Enzymes"]])).
    + intros n [<-|[<-|[]]] H; vm_compute in H; discriminate.
    + simpl. intuition discriminate.
  - apply (loader_exceptions
             (mkFrame ["Gene"; "Uniprot"] [[CStr "A"; CStr "P1"]])).
    + intros n [<-|[<-|[]]] H; vm_compute in H; discriminate.
    + simpl. auto.
    + simpl. intuition discriminate.
Defined.

Lemma Forall2_In_left {A B : Type} (R : A -> B -> Prop) (l : list A)
  (l' : list B) (a : A) :
  Forall2 R l l' -> In a l -> exists b, In b l' /\ R a b.
Proof.
  intros H. induction H as [|a0 b0 l l' Hab _ IH]; simpl; [tauto|].
  intros [<-|Ha]; [eauto|]. destruct (IH Ha) as [b [Hb HR]]. eauto.
Qed.

Lemma map_result_raises {A B : Type} (f : A -> result B) (l : list A)
  (x : A) (e : exn) :
  In x l -> f x = Raise e -> exists e', map_result f l = Raise e'.
Proof.
  intros Hin Hx. destruct (map_result f l) as [l'|e'] eqn:E; [|eauto].
  exfalso. assert (Hok : exists l', map_result f l = Ok l') by eauto.
  apply map_result_ok_iff in Hok. rewrite Forall_forall in Hok.
  destruct (Hok x Hin) as [y Hy]. congruence.
Qed.

(** X10: a record with a present "Uniprot" whose "Protein class" cell is
    not a text (a missing value, a number) makes the preparation fail with
    [AttributeError], the pathology column names having their "-"; only
    the records dropped for a missing "Uniprot" may hold such a cell. *)
Theorem loader_non_text_class (data : DataFrame cell) (i : nat)
  (r : list cell) :
  well_formed data ->
  (forall n, In n (columns data) ->
             Py.contains "Pathology prognostics" n = true ->
             Py.contains "-" n = true) ->
  position "Uniprot" (columns data) = Some i ->
  In "Protein class" (columns data) ->
  In r (records data) ->
  present_at i r = true ->
  (forall s, cell_at "Protein class" (columns data) r <> Some (CStr s)) ->
  prepare data = Raise AttributeError.
Proof.
  intros Hwf Hdash Hi Hclass Hr Hp Hnot. unfold prepare.
  destruct data as [cols recs]. cbn [columns records] in *.
  destruct (apply_rows_returns cols recs "favorable" Hdash) as [fav Hfav].
  rewrite Hfav. cbn [bind].
  set (cols1 := set_name FAV cols).
  set (recs1 := records (set_column FAV (map CStr fav) (mkFrame cols recs))).
  assert (Hdash1 : forall n, In n cols1 ->
            Py.contains "Pathology prognostics" n = true ->
            Py.contains "-" n = true).
  { intros n Hn Hc. apply In_set_name in Hn as [Hn| ->]; [auto|].
    discriminate. }
  destruct (apply_rows_returns cols1 recs1 "unfavorable" Hdash1)
    as [unfav Hunfav].
  change (set_column FAV (map CStr fav) (mkFrame cols recs))
    with (mkFrame cols1 recs1).
  rewrite Hunfav. cbn [bind].
  pose proof (records_after_summaries (mkFrame cols recs) fav unfav Hwf
                Hfav Hunfav) as F02.
  cbn zeta in F02. cbn [columns records] in F02.
  fold cols1 recs1 in F02.
  unfold dropna. cbn [columns records set_column].
  fold cols1. set (cols2 := set_name UNFAV cols1).
  assert (Hi2 : position "Uniprot" cols2 = Some i).
  { unfold cols2, cols1. now rewrite position_derived by discriminate. }
  rewrite Hi2. cbn [bind]. unfold get_column. cbn [columns records].
  apply position_In in Hclass as [j Hj].
  assert (Hj2 : position "Protein class" cols2 = Some j).
  { unfold cols2, cols1. now rewrite position_derived by discriminate. }
  rewrite Hj2. cbn [bind].
  destruct (Forall2_In_left _ _ _ _ F02 Hr) as [r2 [Hr2 [Hlen [f [u E]]]]].
  assert (Hp2 : present_at i r2 = true).
  { rewrite E. unfold cols1. now rewrite present_preserved. }
  assert (Hc2 : nth_error r2 j = cell_at "Protein class" cols r).
  { destruct (derived_cells cols r (CStr f) (CStr u) Hlen)
      as [_ [_ [_ Hother]]].
    specialize (Hother "Protein class"). fold cols1 cols2 in Hother.
    rewrite <- E in Hother. unfold cell_at in Hother at 1.
    rewrite Hj2 in Hother. apply Hother; discriminate. }
  assert (Hbad : prioritize_cell (nth_error r2 j) = Raise AttributeError).
  { rewrite Hc2.
    destruct (cell_at "Protein class" cols r) as [[s| |t]|] eqn:Ec;
      try reflexivity.
    now destruct (Hnot s). }
  match goal with
  | |- context [map_result prioritize_cell ?l] =>
      destruct (map_result_raises prioritize_cell l (nth_error r2 j)
                  AttributeError) as [e He]
  end.
  - apply in_map_iff. exists r2. split; [reflexivity|].
    apply filter_In. auto.
  - exact Hbad.
  - rewrite He. cbn [bind]. f_equal.
    apply map_result_raise in He as [x [_ Hx]].
    eapply prioritize_cell_raise, Hx.
Qed.

Lemma loader_non_text_class_witness :
  prepare (mkFrame ["Uniprot"; "Protein class"]
             [[CStr "P1"; CStr "Enzymes"]; [CStr "P2"; CNaN]])
  = Raise AttributeError.
Proof.
  apply (loader_non_text_class _ 0 [CStr "P2"; CNaN]).
  - split; simpl.
    + repeat (constructor; [simpl; intuition discriminate|]). constructor.
    + repeat constructor.
  - intros n [<-|[<-|[]]] H; vm_compute in H; discriminate.
  - reflexivity.
  - simpl. auto.
  - simpl. auto.
  - reflexivity.
  - intros s. vm_compute. discriminate.
Defined.

End LoaderMore.

(** ** The page *)

Section Page.

Lemma filter_set_name (name : string) (cols : list string) :
  Py.contains "Pathology prognostics" name = false ->
  filter (fun x => Py.contains "Pathology prognostics" x) (set_name name cols)
  = filter (fun x => Py.contains "Pathology prognostics" x) cols.
Proof.
  intros H. unfold set_name. destruct (position name cols); [reflexivity|].
  rewrite filter_app. simpl. rewrite H. apply app_nil_r.
Qed.

Lemma cancer_type_options_In (cols opts : list string) (c : string) :
  cancer_type_options cols = Ok opts ->
  (In c opts <-> exists n, In n cols
                           /\ Py.contains "Pathology prognostics" n = true
                           /\ cancer_type n = Ok c).
Proof.
  intros H. unfold cancer_type_options in H.
  rewrite (map_result_In cancer_type _ _ c H). split.
  - intros [n [Hn Hc]]. apply filter_In in Hn as [Hn Hp]. eauto.
  - intros [n [Hn [Hp Hc]]]. exists n. split; [|assumption].
    apply filter_In. auto.
Qed.

(** X11: when the cancer types offered by the select box can be computed
    from the column names, the summarizer returns for every record over
    these columns and every polarity, and each cancer type it lists is one
    of those offered. *)
Theorem cancer_options_cover_summaries (cols opts : list string) :
  cancer_type_options cols = Ok opts ->
  forall (r : list cell) (pt : string),
  exists l,
    cancer_types (row_series cols r) pt = Ok l
    /\ generate_prognostic_data (row_series cols r) pt = Ok (Py.join "," l)
    /\ incl l opts.
Proof.
  intros Hopts r pt.
  assert (Hcols : forall n, In n (prognostics (row_series cols r) pt) ->
            In n cols /\ Py.contains "Pathology prognostics" n = true).
  { intros n Hn. apply In_prognostics in Hn as [v [Hin [Hc _]]].
    apply in_combine_l in Hin. auto. }
  assert (Hok : exists l, cancer_types (row_series cols r) pt = Ok l).
  { apply map_result_ok_iff, Forall_forall. intros n Hn.
    destruct (Hcols n Hn) as [Hin Hc].
    assert (Hall : exists o, cancer_type_options cols = Ok o) by eauto.
    apply map_result_ok_iff in Hall. rewrite Forall_forall in Hall.
    apply Hall, filter_In. auto. }
  destruct Hok as [l Hl]. exists l. split; [assumption|].
  split; [apply generate_prognostic_data_join; eauto|].
  intros c Hc. apply (map_result_In cancer_type _ _ c Hl) in Hc as [n [Hn Hnc]].
  destruct (Hcols n Hn) as [Hin Hp].
  apply (cancer_type_options_In cols opts c Hopts). eauto.
Qed.

Lemma cancer_options_cover_summaries_witness :
  exists l,
    cancer_types
      (row_series ["Gene"; "Pathology prognostics - Liver cancer";
                   "Pathology prognostics - Renal cancer"]
         [CStr "ABC1"; CStr "unfavorable"; CStr "favorable"])
      "favorable" = Ok l
    /\ generate_prognostic_data
         (row_series ["Gene"; "Pathology prognostics - Liver cancer";
                      "Pathology prognostics - Renal cancer"]
            [CStr "ABC1"; CStr "unfavorable"; CStr "favorable"])
         "favorable" = Ok (Py.join "," l)
    /\ incl l ["Liver cancer"; "Renal cancer"].
Proof.
  apply cancer_options_cover_summaries. reflexivity.
Defined.

(** X12: the derived columns add nothing to the select box: the cancer
    types computed from the columns of the loaded table are those computed
    from the source columns. They are computed exactly when every column
    name containing "Pathology prognostics" has a "-", and the computation
    raises [IndexError] otherwise, also after a load that succeeded. *)
Theorem cancer_options_of_loaded_table (data : DataFrame cell)
  (out : DataFrame dcell) :
  prepare data = Ok out ->
  cancer_type_options (columns out) = cancer_type_options (columns data)
  /\ ((exists opts, cancer_type_options (columns out) = Ok opts)
      <-> (forall n, In n (columns data) ->
                     Py.contains "Pathology prognostics" n = true ->
                     Py.contains "-" n = true))
  /\ ((exists opts, cancer_type_options (columns out) = Ok opts)
      \/ cancer_type_options (columns out) = Raise IndexError).
Proof.
  intros Hout.
  apply prepare_unfold in Hout
    as (fav & unfav & i & j & prioritized & _ & _ & _ & _ & _ & ->).
  cbn [columns set_column map_frame].
  assert (E : cancer_type_options
                (set_name PPC (set_name UNFAV (set_name FAV (columns data))))
              = cancer_type_options (columns data)).
  { unfold cancer_type_options. now rewrite !filter_set_name. }
  rewrite E. split; [reflexivity|]. split.
  - unfold cancer_type_options. rewrite map_result_ok_iff, Forall_forall.
    split.
    + intros H n Hn Hc. apply cancer_type_ok_iff, H, filter_In. auto.
    + intros H n Hn. apply filter_In in Hn as [Hn Hc].
      apply cancer_type_ok_iff. auto.
  - unfold cancer_type_options.
    destruct (map_result cancer_type _) as [opts|e] eqn:Eo; [eauto|].
    right. apply map_result_raise in Eo as [n [_ Hn]].
    now rewrite (cancer_type_raise n e Hn).
Qed.

Lemma cancer_options_of_loaded_table_witness :
  cancer_type_options (columns sample_prepared)
  = cancer_type_options (columns sample_table).
Proof.
  apply (cancer_options_of_loaded_table sample_table sample_prepared).
  reflexivity.
Defined.

(** A load may succeed on a table for which the select box then fails. *)
Example options_fail_after_load :
  let data := mkFrame ["Uniprot"; "Protein class"; "Pathology prognostics"]
                [[CStr "P1"; CStr "Enzymes"; CNaN]] in
  (exists out, prepare data = Ok out
               /\ cancer_type_options (columns out) = Raise IndexError).
Proof. eexists. split; reflexivity. Qed.

Lemma split2_no_comma (x : string) :
  Py.has_char "," x = false -> Py.split2 "," " " x = [x].
Proof.
  induction x as [|a x IH]; [reflexivity|].
  intros H. cbn [Py.has_char] in H. apply orb_false_iff in H as [Ha Hx].
  specialize (IH Hx). cbn [Py.split2]. destruct x as [|b x']; [reflexivity|].
  rewrite Ha, IH. reflexivity.
Qed.

Lemma split2_app_sep (x rest : string) :
  Py.has_char "," x = false ->
  Py.split2 "," " " (x ++ ", " ++ rest)%string
  = x :: Py.split2 "," " " rest.
Proof.
  induction x as [|a x IH]; [reflexivity|].
  intros H. cbn [Py.has_char] in H. apply orb_false_iff in H as [Ha Hx].
  specialize (IH Hx).
  change (String a x ++ ", " ++ rest)%string
    with (String a (x ++ ", " ++ rest)%string).
  cbn [Py.split2].
  destruct (x ++ ", " ++ rest)%string as [|b t] eqn:E.
  - destruct x; discriminate.
  - rewrite Ha, IH. reflexivity.
Qed.

Lemma split2_join (l : list string) :
  l <> [] ->
  Forall (fun x => Py.has_char "," x = false) l ->
  Py.split2 "," " " (Py.join ", " l) = l.
Proof.
  induction l as [|x l IH]; [congruence|]. intros _ H.
  inversion H as [|? ? Hx Hl]; subst.
  destruct l as [|y l].
  - simpl. now apply split2_no_comma.
  - change (Py.join ", " (x :: y :: l))
      with (x ++ ", " ++ Py.join ", " (y :: l))%string.
    rewrite split2_app_sep by assumption.
    f_equal. apply IH; [discriminate | assumption].
Qed.

Lemma strip_cons_space (c : ascii) (s : string) :
  Py.isspace c = true -> Py.strip (String c s) = Py.strip s.
Proof.
  intros Hc. unfold Py.strip. rewrite rstrip_cons, Hc.
  destruct (Py.rstrip s) as [|d r]; [reflexivity|].
  cbn [Py.lstrip]. now rewrite Hc.
Qed.

Lemma class_list_cons_space (s : string) :
  class_list (String " " s) = class_list s.
Proof.
  unfold class_list. cbn [Py.split]. simpl (Ascii.eqb " " ",").
  pose proof (split_not_nil "," s) as Hn.
  destruct (Py.split "," s) as [|p rest]; [congruence|].
  simpl map. now rewrite strip_cons_space.
Qed.

Lemma class_list_join_space (l : list string) :
  l <> [] ->
  Forall (fun x => Py.strip x = x /\ Py.has_char "," x = false) l ->
  class_list (Py.join ", " l) = l.
Proof.
  induction l as [|x l IH]; [congruence|]. intros _ H.
  inversion H as [|? ? [Hs Hx] Hl]; subst.
  destruct l as [|y l].
  - simpl. unfold class_list. rewrite split_no_sep by assumption.
    simpl. now rewrite Hs.
  - change (Py.join ", " (x :: y :: l))
      with (x ++ String "," (String " " (Py.join ", " (y :: l))))%string.
    unfold class_list. rewrite split_app_sep by assumption.
    cbn [map]. rewrite Hs. f_equal.
    change (class_list (String " " (Py.join ", " (y :: l))) = y :: l).
    rewrite class_list_cons_space. apply IH; [discriminate | assumption].
Qed.

(** X13: for class texts written as trimmed, comma-free labels separated
    by ", " (at least one label each), the pieces the page collects with
    [split(", ")] are, text after text, the labels the prioritizer works
    on: both give back the labels as written. *)
Theorem class_pieces_agree (lls : list (list string)) :
  Forall (fun l => l <> []
                   /\ Forall (fun x => Py.strip x = x
                                       /\ Py.has_char "," x = false) l)
    lls ->
  protein_class_pieces (map (Py.join ", ") lls) = List.concat lls
  /\ flat_map class_list (map (Py.join ", ") lls) = List.concat lls.
Proof.
  unfold protein_class_pieces.
  induction 1 as [|l lls [Hn Hl] _ [IH1 IH2]]; [split; reflexivity|].
  cbn [map flat_map List.concat]. rewrite IH1, IH2.
  rewrite class_list_join_space by assumption.
  rewrite split2_join; [split; reflexivity | assumption|].
  eapply Forall_impl; [|exact Hl]. now intros x [_ Hx].
Qed.

Lemma class_pieces_agree_witness :
  protein_class_pieces
    (map (Py.join ", ")
       [["Enzymes"; "Plasma proteins"]; ["Transporters"]])
  = List.concat [["Enzymes"; "Plasma proteins"]; ["Transporters"]]
  /\ flat_map class_list
       (map (Py.join ", ")
          [["Enzymes"; "Plasma proteins"]; ["Transporters"]])
     = List.concat [["Enzymes"; "Plasma proteins"]; ["Transporters"]].
Proof.
  apply class_pieces_agree.
  repeat (constructor; [split; [discriminate|repeat constructor]|]).
  constructor.
Defined.

(** Without the space after the comma the two differ. *)
Example class_pieces_differ :
  protein_class_pieces ["Enzymes,Transporters"] = ["Enzymes,Transporters"]
  /\ class_list "Enzymes,Transporters" = ["Enzymes"; "Transporters"].
Proof. split; reflexivity. Qed.

End Page.

(** ** What the summarizer reads of a cell *)

Section CellText.

Lemma Forall2_index {C : Type} (R : string * C -> string * C -> Prop)
  (l l' : Series C) :
  (forall a b, R a b -> fst a = fst b) ->
  Forall2 R l l' -> index l = index l'.
Proof.
  intros HR H. induction H as [|a b l l' Hab _ IH]; simpl; [reflexivity|].
  now rewrite (HR a b Hab), IH.
Qed.

Lemma Forall2_getitem_labels {C : Type}
  (R : string * C -> string * C -> Prop) (row row' : Series C)
  (labels : list string) :
  (forall a b, R a b -> fst a = fst b) ->
  Forall2 R row row' ->
  Forall2 R (getitem_labels row labels) (getitem_labels row' labels).
Proof.
  intros HR H. unfold getitem_labels.
  induction labels as [|l labels IH]; simpl; [constructor|].
  apply Forall2_app; [|assumption].
  apply Forall2_filter; [|assumption].
  intros a b Hab. now rewrite (HR a b Hab).
Qed.

(** X14: the summarizer reads a cell through its lower-cased text only:
    two rows with the same column names whose cells have the same text up
    to the case of letters get the same result for every polarity. *)
Theorem summarizer_case_insensitive (row row' : Series cell) (pt : string) :
  Forall2 (fun kv kv' =>
             fst kv = fst kv'
             /\ Py.lower (py_str (snd kv)) = Py.lower (py_str (snd kv')))
    row row' ->
  generate_prognostic_data row pt = generate_prognostic_data row' pt.
Proof.
  intros H.
  set (R := fun kv kv' : string * cell =>
              fst kv = fst kv'
              /\ Py.lower (py_str (snd kv)) = Py.lower (py_str (snd kv'))) in H.
  assert (HR : forall a b, R a b -> fst a = fst b) by now intros a b [E _].
  assert (Hrow : Forall2 R (prognostics_row row) (prognostics_row row')).
  { unfold prognostics_row. rewrite !prognostic_fields_filter.
    assert (Hc : Forall2 R (filter is_candidate row)
                   (filter is_candidate row')).
    { apply Forall2_filter; [|assumption].
      intros a b [E _]. unfold is_candidate. now rewrite E. }
    rewrite (Forall2_index R _ _ HR Hc).
    now apply Forall2_getitem_labels. }
  unfold generate_prognostic_data, cancer_types.
  rewrite !prognostics_filter.
  assert (Ht : Forall2 R
                 (filter (fun kv => has_token pt (snd kv))
                    (prognostics_row row))
                 (filter (fun kv => has_token pt (snd kv))
                    (prognostics_row row'))).
  { apply Forall2_filter; [|assumption].
    intros a b [_ E]. unfold has_token. now rewrite E. }
  now rewrite (Forall2_index R _ _ HR Ht).
Qed.

Lemma summarizer_case_insensitive_witness :
  generate_prognostic_data
    [("Pathology prognostics - Liver cancer", CStr "Prognostic FAVORABLE")]
    "favorable"
  = generate_prognostic_data
      [("Pathology prognostics - Liver cancer", CStr "prognostic favorable")]
      "favorable".
Proof.
  apply summarizer_case_insensitive.
  repeat constructor.
Defined.

(** X15: a missing cell is read as the text "nan": it holds the polarity
    word exactly when that word is "nan", so that a column with a missing
    cell enters the summary for the polarity "nan" and for no other. *)
Theorem missing_cell_text (n : string) (pt : string) :
  has_token pt CNaN = String.eqb pt "nan"
  /\ (In n (prognostics [(n, CNaN)] pt)
      <-> Py.contains "Pathology prognostics" n = true /\ pt = "nan").
Proof.
  assert (E : has_token pt CNaN = String.eqb pt "nan").
  { unfold has_token, Py.mem. simpl. apply orb_false_r. }
  split; [exact E|].
  rewrite In_prognostics. split.
  - intros [v [[Hv|[]] [Hc Ht]]]. injection Hv as <-.
    rewrite E in Ht. apply String.eqb_eq in Ht. auto.
  - intros [Hc ->]. exists CNaN. repeat split; [now left | assumption].
Qed.

End CellText.
